(** * Career assistant: a shallow embedding of the client components

    The repository is a Next.js front end (TypeScript/React) talking to a
    FastAPI back end.  The front-end components are embedded here as state
    transformers over their React state:

    - [FileUpload]          (components/FileUpload.tsx)
    - [DocumentGeneration]  (components/DocumentGeneration.tsx)
    - [EmailSender]         (components/EmailSender.tsx)
    - [Home]                (app/page.tsx)

    An event handler is a computation in the monad [M] below: it reads the
    values its closure captured at render time, queues React state updates,
    issues HTTP requests against a network (an oracle for the server), and
    leaves a trace of the effects that are visible outside the component. *)

From stdpp Require Import base option list strings gmap.
From Stdlib Require Import ZArith QArith Qround Lia Lqa.

Local Open Scope string_scope.

(** ** JavaScript values *)

Module JS.

(** [!!s] on a string: every string but the empty one is truthy. *)
Definition truthy (s : string) : bool :=
  match s with
  | EmptyString => false
  | String _ _ => true
  end.

(** A [string | null] (or [string | undefined]) value: [None] is falsy. *)
Definition truthy_opt (v : option string) : bool :=
  match v with
  | Some s => truthy s
  | None => false
  end.

(** [v || d] with a string default. *)
Definition or_default (v : option string) (d : string) : string :=
  match v with
  | Some s => if truthy s then s else d
  | None => d
  end.

(** [v || null]. *)
Definition or_null (v : option string) : option string :=
  match v with
  | Some s => if truthy s then Some s else None
  | None => None
  end.

(** What a [throw] carries: an [Error] object or some other value. *)
Inductive thrown : Type :=
  | ErrorObj (message : string)
  | OtherValue.

(** [err instanceof Error ? err.message : "An error occurred"] *)
Definition message_of (err : thrown) : string :=
  match err with
  | ErrorObj m => m
  | OtherValue => "An error occurred"
  end.

Definition nl : string := String (Ascii.ascii_of_nat 10) EmptyString.

End JS.

(** ** HTTP *)

Module Http.

(** A browser [File]; the handlers only look at its MIME type. *)
Record File : Type := mkFile {
  file_name : string;
  file_type : string;
  file_content : string
}.

#[global] Instance File_eq_dec : EqDecision File.
Proof. solve_decision. Defined.

Inductive FormValue : Type :=
  | FileField (f : File)
  | TextField (s : string).

Inductive Payload : Type :=
  | FormData (fields : list (string * FormValue))
  | JsonText (fields : list (string * string)).

Record Request : Type := mkRequest {
  url : string;
  method : string;
  headers : list (string * string);
  payload : Payload
}.

(** Modelled from the spec: the response bodies are typed [any] in the
    source; section 6 of the specification gives their shape, an error body
    [{"detail": <message>}], a confirmation [{"message": <string>}] and the
    analysis result, whose fields the components read are those of
    [AnalysisResultsProps] (AnalysisResults.tsx) and [contact_email]
    (page.tsx). *)
Record JobAnalysis : Type := mkJobAnalysis {
  job_title : option string;
  company_name : option string;
  contact_email : option string;
  required_skills : list string;
  preferred_skills : list string;
  key_responsibilities : list string
}.

Record ResumeAnalysis : Type := mkResumeAnalysis {
  candidate_name : option string;
  skills : list string;
  experience : list string;
  education : list string;
  summary : option string
}.

Record SkillGapJson : Type := mkSkillGapJson {
  matching_skills : list string;
  missing_skills : list string;
  partial_skills : list string
}.

Record Body : Type := mkBody {
  detail : option string;
  message : option string;
  job_analysis : option JobAnalysis;
  resume_analysis : option ResumeAnalysis;
  skill_gap : option SkillGapJson;
  match_percentage : option Z
}.

(** [json] is what [response.json()] settles to: a parsed body, or a
    rejection with the parser's error message; [blob] is what
    [response.blob()] settles to, taken as always there. *)
Record Response : Type := mkResponse {
  ok : bool;
  json : string + Body;
  blob : string
}.

(** What [await fetch(..)] settles to. *)
Inductive Settled : Type :=
  | Resolved (r : Response)
  | Rejected (err : JS.thrown).

Definition Network : Type := Request → Settled.

End Http.

(** ** Effects of an event handler *)

Module Effect.
Import JS Http.

(** What a handler does that is visible outside its component's state. *)
Inductive Event : Type :=
  | Fetch (req : Request)
  | Download (filename : string) (content : string)
  | AnalysisComplete (data : Body) (resume jobDescription : File)
  | DocumentsGenerated (resumePath coverLetterPath : string).

Definition is_fetch (e : Event) : bool :=
  match e with Fetch _ => true | _ => false end.

(** The events of the success path of a handler. *)
Definition is_success (e : Event) : bool :=
  match e with
  | Fetch _ => false
  | Download _ _ | AnalysisComplete _ _ _ | DocumentsGenerated _ _ => true
  end.

Record Outcome (S A : Type) : Type := mkOutcome {
  state : S;
  trace : list Event;
  result : thrown + A
}.
Arguments mkOutcome {S A}.
Arguments state {S A}.
Arguments trace {S A}.
Arguments result {S A}.

(** A handler body over component state [S]. *)
Definition M (S A : Type) : Type := Network → S → Outcome S A.

Definition run {S A} (m : M S A) (net : Network) (st : S) : Outcome S A :=
  m net st.

Definition pure {S A} (a : A) : M S A :=
  λ _ st, mkOutcome st [] (inr a).

Definition bind {S A B} (m : M S A) (k : A → M S B) : M S B :=
  λ net st,
    match m net st with
    | mkOutcome st' tr (inl err) => mkOutcome st' tr (inl err)
    | mkOutcome st' tr (inr a) =>
        match k a net st' with
        | mkOutcome st'' tr' r => mkOutcome st'' (tr ++ tr') r
        end
    end.

#[global] Instance M_ret S : MRet (M S) := λ A, @pure S A.
#[global] Instance M_bind S : MBind (M S) := λ A B k m, @bind S A B m k.

(** A React state setter. *)
Definition update {S} (f : S → S) : M S unit :=
  λ _ st, mkOutcome (f st) [] (inr tt).

Definition emit {S} (e : Event) : M S unit :=
  λ _ st, mkOutcome st [e] (inr tt).

Definition throw {S A} (err : thrown) : M S A :=
  λ _ st, mkOutcome st [] (inl err).

(** [await fetch(url, init)] *)
Definition fetch {S} (req : Request) : M S Response :=
  λ net st,
    match net req with
    | Resolved r => mkOutcome st [Fetch req] (inr r)
    | Rejected err => mkOutcome st [Fetch req] (inl err)
    end.

(** [await response.json()] *)
Definition json_of {S} (r : Response) : M S Body :=
  match json r with
  | inl msg => throw (ErrorObj msg)
  | inr b => pure b
  end.

(** [try { m } catch (err) { h err }] *)
Definition try_catch {S A} (m : M S A) (h : thrown → M S A) : M S A :=
  λ net st,
    match m net st with
    | mkOutcome st' tr (inl err) =>
        match h err net st' with
        | mkOutcome st'' tr' r => mkOutcome st'' (tr ++ tr') r
        end
    | mkOutcome st' tr (inr a) => mkOutcome st' tr (inr a)
    end.

(** [try { m } finally { f }] *)
Definition try_finally {S A} (m : M S A) (f : M S unit) : M S A :=
  λ net st,
    match m net st with
    | mkOutcome st' tr r =>
        match f net st' with
        | mkOutcome st'' tr' (inl err) => mkOutcome st'' (tr ++ tr') (inl err)
        | mkOutcome st'' tr' (inr _) => mkOutcome st'' (tr ++ tr') r
        end
    end.

Definition when {S} (b : bool) (m : M S unit) : M S unit :=
  if b then m else pure tt.

End Effect.

(** ** components/EmailSender.tsx *)

Module EmailSender.
Import JS Http Effect.

Record Props : Type := mkProps {
  contactEmail : option string;
  jobTitle : string;
  companyName : option string;
  candidateName : option string;
  resumePath : string;
  coverLetterPath : string
}.

Record State : Type := mkState {
  recipientEmail : string;
  subject : string;
  body : string;
  sending : bool;
  success : option string;
  error : option string
}.

Definition setSending (v : bool) (st : State) : State :=
  mkState (recipientEmail st) (subject st) (body st) v (success st) (error st).
Definition setSuccess (v : option string) (st : State) : State :=
  mkState (recipientEmail st) (subject st) (body st) (sending st) v (error st).
Definition setError (v : option string) (st : State) : State :=
  mkState (recipientEmail st) (subject st) (body st) (sending st) (success st) v.
Definition setRecipientEmail (v : string) (st : State) : State :=
  mkState v (subject st) (body st) (sending st) (success st) (error st).
Definition setSubject (v : string) (st : State) : State :=
  mkState (recipientEmail st) v (body st) (sending st) (success st) (error st).
Definition setBody (v : string) (st : State) : State :=
  mkState (recipientEmail st) (subject st) v (sending st) (success st) (error st).

Definition initialSubject (p : Props) : string :=
  "Application for " +:+ jobTitle p +:+
  (if truthy_opt (candidateName p)
   then " - " +:+ default "" (candidateName p)
   else "").

Definition initialBody (p : Props) : string :=
  "Dear Hiring Manager," +:+ nl +:+ nl +:+
  "I am writing to express my strong interest in the " +:+ jobTitle p +:+
  " position" +:+
  (if truthy_opt (companyName p)
   then " at " +:+ default "" (companyName p)
   else "") +:+
  ". Please find attached my resume and cover letter for your review." +:+
  nl +:+ nl +:+
  "I look forward to the opportunity to discuss how my skills and experience align with your team's needs." +:+
  nl +:+ nl +:+ "Best regards," +:+ nl +:+
  or_default (candidateName p) "[Your Name]".

(** The [useState] initial values, taken on mount. *)
Definition init (p : Props) : State :=
  {| recipientEmail := or_default (contactEmail p) "";
     subject := initialSubject p;
     body := initialBody p;
     sending := false;
     success := None;
     error := None |}.

Definition sendRequest (p : Props) (cl : State) : Request :=
  {| url := "http://localhost:8000/api/send-email";
     method := "POST";
     headers := [("Content-Type", "application/json")];
     payload := JsonText
       [("recipient_email", recipientEmail cl);
        ("subject", subject cl);
        ("body", body cl);
        ("resume_path", resumePath p);
        ("cover_letter_path", coverLetterPath p)] |}.

(** [handleSendEmail]; [p] and [cl] are the props and the state of the
    render that created the closure. *)
Definition handleSendEmail (p : Props) (cl : State) : M State unit :=
  if negb (truthy (recipientEmail cl)) then
    update (setError (Some "Please enter a recipient email address"))
  else if negb (truthy (resumePath p)) || negb (truthy (coverLetterPath p)) then
    update (setError (Some "Please generate documents before sending email"))
  else
    update (setSending true);;
    update (setError None);;
    update (setSuccess None);;
    try_finally
      (try_catch
         (response ← fetch (sendRequest p cl);
          when (negb (ok response))
            (errorData ← json_of response;
             throw (ErrorObj (or_default (detail errorData) "Failed to send email")));;
          data ← json_of response;
          update (setSuccess (Some (or_default (message data) "Email sent successfully!"))))
         (λ err, update (setError (Some (message_of err)))))
      (update (setSending false)).

(** The [disabled] attribute of the send button. *)
Definition sendDisabled (p : Props) (st : State) : bool :=
  sending st || negb (truthy (recipientEmail st))
  || negb (truthy (resumePath p)) || negb (truthy (coverLetterPath p)).

End EmailSender.

(** ** components/DocumentGeneration.tsx *)

Module DocumentGeneration.
Import JS Http Effect.

(** The [format] parameter of both generators: ["docx" | "pdf"]. *)
Inductive Format : Type := docx | pdf.

#[global] Instance Format_eq_dec : EqDecision Format.
Proof. solve_decision. Defined.

Definition format_string (f : Format) : string :=
  match f with docx => "docx" | pdf => "pdf" end.

(** [onDocumentsGenerated] is an optional prop; [notifies] tells whether
    the parent passed it. *)
Record Props : Type := mkProps {
  resumeFile : option File;
  jobDescriptionFile : option File;
  notifies : bool
}.

Record State : Type := mkState {
  loadingResume : bool;
  loadingCover : bool;
  error : option string;
  success : option string;
  resumePath : string;
  coverPath : string
}.

Definition init : State :=
  {| loadingResume := false; loadingCover := false;
     error := None; success := None;
     resumePath := ""; coverPath := "" |}.

Definition setLoadingResume (v : bool) (st : State) : State :=
  mkState v (loadingCover st) (error st) (success st) (resumePath st) (coverPath st).
Definition setLoadingCover (v : bool) (st : State) : State :=
  mkState (loadingResume st) v (error st) (success st) (resumePath st) (coverPath st).
Definition setError (v : option string) (st : State) : State :=
  mkState (loadingResume st) (loadingCover st) v (success st) (resumePath st) (coverPath st).
Definition setSuccess (v : option string) (st : State) : State :=
  mkState (loadingResume st) (loadingCover st) (error st) v (resumePath st) (coverPath st).
Definition setResumePath (v : string) (st : State) : State :=
  mkState (loadingResume st) (loadingCover st) (error st) (success st) v (coverPath st).
Definition setCoverPath (v : string) (st : State) : State :=
  mkState (loadingResume st) (loadingCover st) (error st) (success st) (resumePath st) v.

Definition generateRequest (endpoint : string) (rf jf : File) (format : Format)
  : Request :=
  {| url := endpoint;
     method := "POST";
     headers := [];
     payload := FormData
       [("resume", FileField rf);
        ("job_description", FileField jf);
        ("format", TextField (format_string format))] |}.

(** [`latest_resume.${format}`] *)
Definition resumeFilename (format : Format) : string :=
  "latest_resume." +:+ format_string format.

(** [`latest_cover_letter.${format}`] *)
Definition coverLetterFilename (format : Format) : string :=
  "latest_cover_letter." +:+ format_string format.

(** [`generated/${filename}`] *)
Definition backendPath (filename : string) : string :=
  "generated/" +:+ filename.

(** [handleGenerateResume]: [cl] is the state of the render that created
    the closure, from which [coverPath] is read. *)
Definition handleGenerateResume (p : Props) (cl : State) (format : Format)
  : M State unit :=
  match resumeFile p, jobDescriptionFile p with
  | Some rf, Some jf =>
      update (setLoadingResume true);;
      update (setError None);;
      update (setSuccess None);;
      try_finally
        (try_catch
           (response ← fetch
              (generateRequest "http://localhost:8000/api/generate-resume" rf jf format);
            when (negb (ok response))
              (errorData ← json_of response;
               throw (ErrorObj (or_default (detail errorData) "Resume generation failed")));;
            let filename := resumeFilename format in
            emit (Download filename (blob response));;
            let backendPath := backendPath filename in
            update (setResumePath backendPath);;
            when (notifies p) (emit (DocumentsGenerated backendPath (coverPath cl)));;
            update (setResumePath backendPath);;
            update (setSuccess (Some ("✅ Resume: " +:+ filename))))
           (λ err, update (setError (Some (message_of err)))))
        (update (setLoadingResume false))
  | _, _ => update (setError (Some "Missing required files"))
  end.

(** [handleGenerateCoverLetter] *)
Definition handleGenerateCoverLetter (p : Props) (cl : State) (format : Format)
  : M State unit :=
  match resumeFile p, jobDescriptionFile p with
  | Some rf, Some jf =>
      update (setLoadingCover true);;
      update (setError None);;
      update (setSuccess None);;
      try_finally
        (try_catch
           (response ← fetch
              (generateRequest "http://localhost:8000/api/generate-cover-letter" rf jf format);
            when (negb (ok response))
              (errorData ← json_of response;
               throw (ErrorObj (or_default (detail errorData) "Cover letter generation failed")));;
            let filename := coverLetterFilename format in
            emit (Download filename (blob response));;
            let backendPath := backendPath filename in
            update (setCoverPath backendPath);;
            when (notifies p) (emit (DocumentsGenerated (resumePath cl) backendPath));;
            update (setCoverPath backendPath);;
            update (setSuccess (Some ("✅ Cover Letter: " +:+ filename))))
           (λ err, update (setError (Some (message_of err)))))
        (update (setLoadingCover false))
  | _, _ => update (setError (Some "Missing required files"))
  end.

End DocumentGeneration.

(** ** components/FileUpload.tsx *)

Module FileUpload.
Import JS Http Effect.

(** The [type] argument of the handlers: ["resume" | "job"]. *)
Inductive Slot : Type := resume | job.

#[global] Instance Slot_eq_dec : EqDecision Slot.
Proof. solve_decision. Defined.

Record State : Type := mkState {
  resumeFile : option File;
  jobFile : option File;
  loading : bool;
  error : option string;
  dragActive : option Slot
}.

Definition init : State :=
  {| resumeFile := None; jobFile := None; loading := false;
     error := None; dragActive := None |}.

Definition setResumeFile (v : option File) (st : State) : State :=
  mkState v (jobFile st) (loading st) (error st) (dragActive st).
Definition setJobFile (v : option File) (st : State) : State :=
  mkState (resumeFile st) v (loading st) (error st) (dragActive st).
Definition setLoading (v : bool) (st : State) : State :=
  mkState (resumeFile st) (jobFile st) v (error st) (dragActive st).
Definition setError (v : option string) (st : State) : State :=
  mkState (resumeFile st) (jobFile st) (loading st) v (dragActive st).
Definition setDragActive (v : option Slot) (st : State) : State :=
  mkState (resumeFile st) (jobFile st) (loading st) (error st) v.

(** The part shared by [handleDrop] and [handleFileChange]:
    [if (files && files[0]) { ... }] over a [FileList]. *)
Definition acceptFiles (files : list File) (type : Slot) : M State unit :=
  match files with
  | file :: _ =>
      if String.eqb (file_type file) "application/pdf" then
        (match type with
         | resume => update (setResumeFile (Some file))
         | job => update (setJobFile (Some file))
         end);;
        update (setError None)
      else
        update (setError (Some "Please upload PDF files only"))
  | [] => mret tt
  end.

(** [handleDrag]: [etype] is [e.type]. *)
Definition handleDrag (etype : string) (type : Slot) : M State unit :=
  if String.eqb etype "dragenter" || String.eqb etype "dragover" then
    update (setDragActive (Some type))
  else if String.eqb etype "dragleave" then
    update (setDragActive None)
  else mret tt.

(** [handleDrop]: [files] is [e.dataTransfer.files]. *)
Definition handleDrop (files : list File) (type : Slot) : M State unit :=
  update (setDragActive None);;
  acceptFiles files type.

(** [handleFileChange]: [files] is [e.target.files]. *)
Definition handleFileChange (files : list File) (type : Slot) : M State unit :=
  acceptFiles files type.

Definition analyzeRequest (rf jf : File) : Request :=
  {| url := "http://localhost:8000/api/upload-and-analyze";
     method := "POST";
     headers := [];
     payload := FormData
       [("resume", FileField rf); ("job_description", FileField jf)] |}.

(** [handleAnalyze]: [cl] is the state of the render that created the
    closure. *)
Definition handleAnalyze (cl : State) : M State unit :=
  match resumeFile cl, jobFile cl with
  | Some rf, Some jf =>
      update (setLoading true);;
      update (setError None);;
      try_finally
        (try_catch
           (response ← fetch (analyzeRequest rf jf);
            when (negb (ok response))
              (errorData ← json_of response;
               throw (ErrorObj (or_default (detail errorData) "Analysis failed")));;
            data ← json_of response;
            emit (AnalysisComplete data rf jf))
           (λ err, update (setError (Some (message_of err)))))
        (update (setLoading false))
  | _, _ => update (setError (Some "Please upload both files"))
  end.

End FileUpload.

(** ** app/page.tsx *)

Module Home.
Import JS Http Effect.

Inductive Step : Type := upload | results.

#[global] Instance Step_eq_dec : EqDecision Step.
Proof. solve_decision. Defined.

Record UploadedFiles : Type := mkUploadedFiles {
  resume : option File;
  jobDescription : option File
}.

Record GeneratedDocs : Type := mkGeneratedDocs {
  resumePath : string;
  coverLetterPath : string
}.

Record State : Type := mkState {
  step : Step;
  analysisData : option Body;
  uploadedFiles : UploadedFiles;
  generatedDocs : GeneratedDocs
}.

Definition init : State :=
  {| step := upload;
     analysisData := None;
     uploadedFiles := {| resume := None; jobDescription := None |};
     generatedDocs := {| resumePath := ""; coverLetterPath := "" |} |}.

Definition setStep (v : Step) (st : State) : State :=
  mkState v (analysisData st) (uploadedFiles st) (generatedDocs st).
Definition setAnalysisData (v : option Body) (st : State) : State :=
  mkState (step st) v (uploadedFiles st) (generatedDocs st).
Definition setUploadedFiles (v : UploadedFiles) (st : State) : State :=
  mkState (step st) (analysisData st) v (generatedDocs st).
Definition setGeneratedDocs (v : GeneratedDocs) (st : State) : State :=
  mkState (step st) (analysisData st) (uploadedFiles st) v.

(** The handlers of [Home] only queue state updates. *)
Definition handleAnalysisComplete (data : Body) (rf jf : File) (st : State)
  : State :=
  setStep results
    (setUploadedFiles {| resume := Some rf; jobDescription := Some jf |}
       (setAnalysisData (Some data) st)).

Definition handleReset (st : State) : State :=
  setUploadedFiles {| resume := None; jobDescription := None |}
    (setAnalysisData None
       (setStep upload st)).

(** [analysisData?.job_analysis?.<field>] and
    [analysisData?.resume_analysis?.<field>] *)
Definition job_field (st : State) (f : JobAnalysis → option string)
  : option string :=
  match analysisData st with
  | Some data =>
      match job_analysis data with
      | Some j => f j
      | None => None
      end
  | None => None
  end.

Definition resume_field (st : State) (f : ResumeAnalysis → option string)
  : option string :=
  match analysisData st with
  | Some data =>
      match resume_analysis data with
      | Some r => f r
      | None => None
      end
  | None => None
  end.

(** The props passed to [<DocumentGeneration>]. *)
Definition documentGenerationProps (st : State) : DocumentGeneration.Props :=
  {| DocumentGeneration.resumeFile := resume (uploadedFiles st);
     DocumentGeneration.jobDescriptionFile := jobDescription (uploadedFiles st);
     DocumentGeneration.notifies := true |}.

(** The props passed to [<EmailSender>]. *)
Definition emailSenderProps (st : State) : EmailSender.Props :=
  {| EmailSender.contactEmail := or_null (job_field st contact_email);
     EmailSender.jobTitle := or_default (job_field st job_title) "";
     EmailSender.companyName := or_null (job_field st company_name);
     EmailSender.candidateName := or_null (resume_field st candidate_name);
     EmailSender.resumePath := resumePath (generatedDocs st);
     EmailSender.coverLetterPath := coverLetterPath (generatedDocs st) |}.

(** Which children the render mounts. *)
Definition showsFileUpload (st : State) : bool :=
  bool_decide (step st = upload).

Definition showsDocumentGeneration (st : State) : bool :=
  bool_decide (step st = results).

Definition showsEmailSender (st : State) : bool :=
  bool_decide (step st = results)
  && (truthy (resumePath (generatedDocs st))
      || truthy (coverLetterPath (generatedDocs st))).

End Home.

(** ** The page as a whole

    One session of the single-page client: the state of [Home] and of the
    children it mounts, driven by user actions.  A handler runs to completion
    in one step; the network it talks to is part of the action.  A generation
    may run on the closure of an earlier render ([age] renders ago), as it
    does when the two generations overlap. *)

Module App.
Import JS Http Effect.

Record State : Type := mkState {
  home : Home.State;
  fileUpload : FileUpload.State;
  documentGeneration : DocumentGeneration.State;
  (** earlier renders of the mounted [DocumentGeneration], latest first:
      the states a closure still in flight may have captured *)
  renders : list DocumentGeneration.State;
  (** [None] while [EmailSender] is not mounted *)
  emailSender : option EmailSender.State;
  (** everything the handlers did so far, oldest first *)
  log : list Event
}.

Definition init : State :=
  {| home := Home.init;
     fileUpload := FileUpload.init;
     documentGeneration := DocumentGeneration.init;
     renders := [];
     emailSender := None;
     log := [] |}.

Inductive Action : Type :=
  | Drag (etype : string) (type : FileUpload.Slot)
  | Drop (files : list File) (type : FileUpload.Slot)
  | FileChange (files : list File) (type : FileUpload.Slot)
  | Analyze (net : Network)
  | GenerateResume (format : DocumentGeneration.Format) (age : nat) (net : Network)
  | GenerateCoverLetter (format : DocumentGeneration.Format) (age : nat) (net : Network)
  | Reset
  | TypeRecipient (v : string)
  | TypeSubject (v : string)
  | TypeBody (v : string)
  | SendEmail (net : Network).

(** The callbacks [Home] passes down: [onAnalysisComplete] is
    [handleAnalysisComplete] and [onDocumentsGenerated] is
    [setGeneratedDocs]. *)
Definition deliver (h : Home.State) (e : Event) : Home.State :=
  match e with
  | AnalysisComplete data rf jf => Home.handleAnalysisComplete data rf jf h
  | DocumentsGenerated r c =>
      Home.setGeneratedDocs {| Home.resumePath := r; Home.coverLetterPath := c |} h
  | Fetch _ | Download _ _ => h
  end.

(** Re-render after [Home] went from [a]'s state to [h]: a child that was
    not shown is mounted with its initial state, one that is no longer shown
    is unmounted, one that stays keeps its state. *)
Definition rerender (a : State) (h : Home.State)
    (fu : FileUpload.State) (dg : DocumentGeneration.State)
    (dgs : list DocumentGeneration.State) (es : option EmailSender.State)
    (tr : list Event) : State :=
  {| home := h;
     fileUpload :=
       if Home.showsFileUpload h && Home.showsFileUpload (home a)
       then fu else FileUpload.init;
     documentGeneration :=
       if Home.showsDocumentGeneration h && Home.showsDocumentGeneration (home a)
       then dg else DocumentGeneration.init;
     renders :=
       if Home.showsDocumentGeneration h && Home.showsDocumentGeneration (home a)
       then dgs else [];
     emailSender :=
       if Home.showsEmailSender h then
         match es with
         | Some s => Some s
         | None => Some (EmailSender.init (Home.emailSenderProps h))
         end
       else None;
     log := log a ++ tr |}.

(** The closure of a generation started [age] renders ago. *)
Definition closure (a : State) (age : nat) : DocumentGeneration.State :=
  default (documentGeneration a) ((documentGeneration a :: renders a) !! age).

Definition onFileUpload (a : State) (m : M FileUpload.State unit) (net : Network)
  : State :=
  if Home.showsFileUpload (home a) then
    let o := run m net (fileUpload a) in
    rerender a (foldl deliver (home a) (trace o))
      (state o) (documentGeneration a) (renders a) (emailSender a) (trace o)
  else a.

Definition onDocumentGeneration (a : State) (m : M DocumentGeneration.State unit)
    (net : Network) : State :=
  if Home.showsDocumentGeneration (home a) then
    let o := run m net (documentGeneration a) in
    rerender a (foldl deliver (home a) (trace o))
      (fileUpload a) (state o) (documentGeneration a :: renders a)
      (emailSender a) (trace o)
  else a.

Definition onEmailSender (a : State) (m : EmailSender.State → M EmailSender.State unit)
    (net : Network) : State :=
  match emailSender a with
  | Some es =>
      let o := run (m es) net es in
      rerender a (foldl deliver (home a) (trace o))
        (fileUpload a) (documentGeneration a) (renders a)
        (Some (state o)) (trace o)
  | None => a
  end.

Definition offline : Network := λ _, Rejected (ErrorObj "Failed to fetch").

(** A button with the [disabled] attribute set does not fire. *)
Definition step (a : State) (act : Action) : State :=
  match act with
  | Drag etype type => onFileUpload a (FileUpload.handleDrag etype type) offline
  | Drop files type => onFileUpload a (FileUpload.handleDrop files type) offline
  | FileChange files type =>
      onFileUpload a (FileUpload.handleFileChange files type) offline
  | Analyze net =>
      let fu := fileUpload a in
      if negb (bool_decide (is_Some (FileUpload.resumeFile fu)))
         || negb (bool_decide (is_Some (FileUpload.jobFile fu)))
         || FileUpload.loading fu
      then a
      else onFileUpload a (FileUpload.handleAnalyze fu) net
  | GenerateResume format age net =>
      if DocumentGeneration.loadingResume (documentGeneration a) then a
      else onDocumentGeneration a
             (DocumentGeneration.handleGenerateResume
                (Home.documentGenerationProps (home a)) (closure a age) format) net
  | GenerateCoverLetter format age net =>
      if DocumentGeneration.loadingCover (documentGeneration a) then a
      else onDocumentGeneration a
             (DocumentGeneration.handleGenerateCoverLetter
                (Home.documentGenerationProps (home a)) (closure a age) format) net
  | Reset =>
      if bool_decide (Home.step (home a) = Home.results) then
        rerender a (Home.handleReset (home a))
          (fileUpload a) (documentGeneration a) (renders a) (emailSender a) []
      else a
  | TypeRecipient v =>
      onEmailSender a (λ _, update (EmailSender.setRecipientEmail v)) offline
  | TypeSubject v =>
      onEmailSender a (λ _, update (EmailSender.setSubject v)) offline
  | TypeBody v =>
      onEmailSender a (λ _, update (EmailSender.setBody v)) offline
  | SendEmail net =>
      match emailSender a with
      | Some es =>
          if EmailSender.sendDisabled (Home.emailSenderProps (home a)) es then a
          else onEmailSender a
                 (EmailSender.handleSendEmail (Home.emailSenderProps (home a))) net
      | None => a
      end
  end.

Definition exec (acts : list Action) : State := foldl step init acts.

(** The JSON body of a request to [/api/send-email]. *)
Definition sendEmailBody (e : Event) : option (list (string * string)) :=
  match e with
  | Fetch req =>
      if String.eqb (url req) "http://localhost:8000/api/send-email" then
        match payload req with
        | JsonText fields => Some fields
        | FormData _ => None
        end
      else None
  | Download _ _ | AnalysisComplete _ _ _ | DocumentsGenerated _ _ => None
  end.

(** The bodies of the requests sent to [/api/send-email] so far. *)
Definition sendEmailBodies (a : State) : list (list (string * string)) :=
  omap sendEmailBody (log a).

(** A field of a JSON body; the keys of a request are distinct. *)
Definition field (k : string) (fields : list (string * string)) : option string :=
  match list_find (λ kv, kv.1 = k) fields with
  | Some (_, (_, v)) => Some v
  | None => None
  end.

End App.

(** ** The back end, from the specification

    The FastAPI back end is not part of the sources at hand.  What the
    properties below need of it is written down from the specification. *)

Module SkillGap.

(** Modelled from the spec: the [SkillGap] entity of section 3; the back
    end's [compute_gap] is missing. *)
Record SkillGap : Type := mkSkillGap {
  matching_skills : list string;
  partial_skills : list string;
  missing_skills : list string;
  match_percentage : Z
}.

(** Modelled from the spec: section 4.3 writes [round] and does not name the
    tie rule; the two in use are kept apart (Python's [round] takes a tie to
    the even neighbour, JavaScript's [Math.round] takes it upwards). *)
Inductive Rounding : Type := HalfUp | HalfEven.

Definition round (mode : Rounding) (q : Q) : Z :=
  let f := Qfloor q in
  match (q - inject_Z f ?= 1 # 2)%Q with
  | Lt => f
  | Gt => (f + 1)%Z
  | Eq =>
      match mode with
      | HalfUp => (f + 1)%Z
      | HalfEven => if Z.even f then f else (f + 1)%Z
      end
  end.

(** Modelled from the spec: the clamp of section 4.3. *)
Definition clamp (lo hi z : Z) : Z := Z.max lo (Z.min hi z).

(** Modelled from the spec: the formula of section 4.3,
    [round(100 * |matching| / max(1, |matching| + |missing|))], clamped to
    [0,100]. *)
Definition percentage (mode : Rounding) (matching missing : nat) : Z :=
  clamp 0 100
    (round mode
       (100 * inject_Z (Z.of_nat matching)
        / inject_Z (Z.max 1 (Z.of_nat matching + Z.of_nat missing)))%Q).

(** Modelled from the spec: the comparison is case-insensitive; ASCII
    letters are folded to lower case. *)
Definition lower_ascii (c : Ascii.ascii) : Ascii.ascii :=
  let n := Ascii.nat_of_ascii c in
  if (65 <=? n)%nat && (n <=? 90)%nat then Ascii.ascii_of_nat (n + 32) else c.

Fixpoint lower (s : string) : string :=
  match s with
  | EmptyString => EmptyString
  | String c s' => String (lower_ascii c) (lower s')
  end.

(** Modelled from the spec: a skill of the job that the resume lists,
    letter case apart. *)
Definition on_resume (resume_skills : list string) (skill : string) : Prop :=
  lower skill ∈ lower <$> resume_skills.

#[global] Instance on_resume_dec resume_skills skill :
  Decision (on_resume resume_skills skill).
Proof. unfold on_resume. apply _. Defined.

(** Modelled from the spec: [compute_gap] of section 4.3, the local
    case-insensitive comparison.  The required skills are split into those
    the resume lists and those it does not; the preferred skills take no part
    (with no required and no resume skill all three lists are empty), and the
    specification gives no local rule for partial matches. *)
Definition compute_gap (mode : Rounding)
    (required_skills preferred_skills resume_skills : list string) : SkillGap :=
  let matching := filter (on_resume resume_skills) required_skills in
  let missing := filter (λ s, ¬ on_resume resume_skills s) required_skills in
  {| matching_skills := matching;
     partial_skills := [];
     missing_skills := missing;
     match_percentage := percentage mode (length matching) (length missing) |}.

End SkillGap.

Module ArtifactStore.
Import DocumentGeneration.

(** The [kind] of a generated document. *)
Inductive Kind : Type := resume | cover_letter.

#[global] Instance Kind_eq_dec : EqDecision Kind.
Proof. solve_decision. Defined.

(** The file name of an artifact, as the client has it: [resumeFilename]
    and [coverLetterFilename] are the two template strings of
    DocumentGeneration.tsx. *)
Definition filename (k : Kind) (f : Format) : string :=
  match k with
  | resume => resumeFilename f
  | cover_letter => coverLetterFilename f
  end.

(** Modelled from the spec: the artifact store of section 6, a directory,
    that is a finite map from file names to contents; the back end's writer
    is missing. *)
Abbreviation Store := (gmap string string).

(** Modelled from the spec: the side effect of [generate] in section 4.4,
    which writes or overwrites the fixed-name file. *)
Definition generate (k : Kind) (f : Format) (content : string) (store : Store)
  : Store :=
  <[filename k f := content]> store.

(** Modelled from the spec: section 6 asks that a path passed to the email
    endpoint resolve within the artifact directory.  A relative path is
    resolved segment by segment: [..] steps out of the current directory,
    [.] and an empty segment stay, any other segment steps in. *)
Fixpoint segments (path : string) : list string :=
  match path with
  | EmptyString => [""]
  | String c rest =>
      if Ascii.eqb c (Ascii.ascii_of_nat 47) then "" :: segments rest
      else match segments rest with
           | seg :: segs => String c seg :: segs
           | [] => [String c ""]
           end
  end.

(** Walks [segs] from [depth] levels below the directory; [false] as soon
    as the walk leaves it. *)
Fixpoint stays_inside (segs : list string) (depth : nat) : bool :=
  match segs with
  | [] => true
  | seg :: segs' =>
      if String.eqb seg ".." then
        match depth with
        | O => false
        | S d => stays_inside segs' d
        end
      else if String.eqb seg "." || String.eqb seg "" then stays_inside segs' depth
      else stays_inside segs' (S depth)
  end.

Definition resolves_within (dir path : string) : bool :=
  match segments path with
  | first :: rest => String.eqb first dir && stays_inside rest 0
  | [] => false
  end.

(** Modelled from the spec: a history of successful generations, oldest
    first, from the empty directory. *)
Definition generations (gens : list (Kind * Format * string)) : Store :=
  foldl (λ store g, generate g.1.1 g.1.2 g.2 store) ∅ gens.

(** The content of the latest generation of [(k, f)] in a history. *)
Definition latest (k : Kind) (f : Format) (gens : list (Kind * Format * string))
  : option string :=
  snd <$> last (filter (λ g, g.1 = (k, f)) gens).

End ArtifactStore.

Module AIClient.

(** Modelled from the spec: the two error kinds of section 7 that the
    analysis client raises. *)
Inductive AIError : Type := AIServiceUnavailable | MalformedAIResponse.

(** Modelled from the spec: one call of the external model, a transient
    network failure or a reply whose required field [job_title] may be
    missing. *)
Inductive Upstream : Type :=
  | Timeout
  | Reply (job_title : option string).

(** Modelled from the spec: what a run of the client does, calls of the
    service and waits in between. *)
Inductive Event : Type :=
  | Call (attempt : nat)
  | Sleep (delay : nat).

(** Modelled from the spec: at most 2 retries. *)
Definition max_retries : nat := 2.

(** Modelled from the spec: exponential backoff, the wait before retry
    number [i + 1] is the base delay doubled [i] times. *)
Definition backoff (base i : nat) : nat := base * 2 ^ i.

(** Modelled from the spec: the validation of section 4.2, where a missing
    [job_title] is a [MalformedAIResponse]. *)
Definition validate (job_title : option string) : AIError + string :=
  match job_title with
  | Some t => inr t
  | None => inl MalformedAIResponse
  end.

(** Modelled from the spec: the retry policy of section 4.2; the back end's
    [analyze] is missing.  [upstream i] is what call number [i] of the
    external service does.  Only a transient network failure is retried, at
    most [max_retries] times, with a wait that doubles. *)
Fixpoint attempt (base : nat) (upstream : nat → Upstream)
    (retries_left i : nat) : list Event * (AIError + string) :=
  match upstream i with
  | Reply job_title => ([Call i], validate job_title)
  | Timeout =>
      match retries_left with
      | O => ([Call i], inl AIServiceUnavailable)
      | S r =>
          let '(tr, res) := attempt base upstream r (S i) in
          (Call i :: Sleep (backoff base i) :: tr, res)
      end
  end.

Definition analyze (base : nat) (upstream : nat → Upstream)
  : list Event * (AIError + string) :=
  attempt base upstream max_retries 0.

Definition calls (tr : list Event) : list nat :=
  omap (λ e, match e with Call i => Some i | Sleep _ => None end) tr.

Definition sleeps (tr : list Event) : list nat :=
  omap (λ e, match e with Sleep d => Some d | Call _ => None end) tr.

(** Every call after the first is a retry. *)
Definition retries (tr : list Event) : nat := length (calls tr) - 1.

End AIClient.


(** * The vocabulary of the properties *)

Import JS Http Effect.

(** ** EmailSender: the initial fields *)

(** The subject with the name appended exactly when it is not null. *)
Definition subject_when_non_null (p : EmailSender.Props) : string :=
  "Application for " +:+ EmailSender.jobTitle p +:+
  match EmailSender.candidateName p with
  | Some name => " - " +:+ name
  | None => ""
  end.

(** The subject with the name appended exactly when it is neither null nor
    empty. *)
Definition subject_when_truthy (p : EmailSender.Props) : string :=
  "Application for " +:+ EmailSender.jobTitle p +:+
  match EmailSender.candidateName p with
  | Some (String c name) => " - " +:+ String c name
  | Some EmptyString | None => ""
  end.

Definition recipient_when_non_null (p : EmailSender.Props) : string :=
  match EmailSender.contactEmail p with
  | Some email => email
  | None => ""
  end.

(** ** FileUpload: the two slots *)

(** The slot a handler call is for. *)
Definition slot (type : FileUpload.Slot) (st : FileUpload.State) : option File :=
  match type with
  | FileUpload.resume => FileUpload.resumeFile st
  | FileUpload.job => FileUpload.jobFile st
  end.

Definition other (type : FileUpload.Slot) : FileUpload.Slot :=
  match type with
  | FileUpload.resume => FileUpload.job
  | FileUpload.job => FileUpload.resume
  end.

(** C6 read over every file of a selection or drop, not only the first:
    each file of another type than [application/pdf] leaves both slots as
    they were and sets the error. *)
Definition rejects_every_other_type
    (handler : list File → FileUpload.Slot → M FileUpload.State unit)
    (files : list File) (type : FileUpload.Slot) (net : Network)
    (st : FileUpload.State) : Prop :=
  ∀ file, file ∈ files → file_type file ≠ "application/pdf" →
    let st' := state (run (handler files type) net st) in
    FileUpload.resumeFile st' = FileUpload.resumeFile st
    ∧ FileUpload.jobFile st' = FileUpload.jobFile st
    ∧ FileUpload.error st' = Some "Please upload PDF files only".

(** ** The analysis client: a run with [k] retries *)

(** The run that starts at call number [i] and retries [k] times: each
    failed call, then the wait before the next one, and at the end the call
    that settles the result. *)
Definition retry_trace (base i k : nat) : list AIClient.Event :=
  flat_map (λ j, [AIClient.Call j; AIClient.Sleep (AIClient.backoff base j)])
           (seq i k)
  ++ [AIClient.Call (i + k)].

(** ** Failed requests *)

(** The message a handler shows for a response that is not ok: the body's
    [detail] when there is one (and it is not empty), the handler's fallback
    otherwise; when the body is not JSON, the parser's message. *)
Definition failure_message (fallback : string) (r : Response) : string :=
  match json r with
  | inl parse_error => parse_error
  | inr b => or_default (detail b) fallback
  end.

(** The handler made a request, and the network answered it with [r]. *)
Definition answered_by {S} (o : Outcome S unit) (net : Network) (r : Response)
  : Prop :=
  ∃ req, Fetch req ∈ trace o ∧ net req = Resolved r.

(** Nothing of the success path happened: no callback, no download. *)
Definition no_success (tr : list Event) : Prop :=
  Forall (λ e, is_success e = false) tr.

(** The requests of a trace. *)
Definition requests (tr : list Event) : list Request :=
  omap (λ e, match e with Fetch req => Some req | _ => None end) tr.

(** ** Attachment paths *)

(** What a path held by the client can be: still empty, or the path of a
    generated document. *)
Definition resume_path_ok (path : string) : Prop :=
  path = ""
  ∨ ∃ f, path = DocumentGeneration.backendPath (DocumentGeneration.resumeFilename f).

Definition cover_path_ok (path : string) : Prop :=
  path = ""
  ∨ ∃ f, path = DocumentGeneration.backendPath (DocumentGeneration.coverLetterFilename f).

Definition docgen_ok (st : DocumentGeneration.State) : Prop :=
  resume_path_ok (DocumentGeneration.resumePath st)
  ∧ cover_path_ok (DocumentGeneration.coverPath st).

Definition docs_ok (docs : Home.GeneratedDocs) : Prop :=
  resume_path_ok (Home.resumePath docs) ∧ cover_path_ok (Home.coverLetterPath docs).

(** The two attachment paths of a send-email body are those of a generated
    resume and of a generated cover letter. *)
Definition body_ok (body : list (string * string)) : Prop :=
  ∃ f g,
    App.field "resume_path" body
    = Some (DocumentGeneration.backendPath (DocumentGeneration.resumeFilename f))
    ∧ App.field "cover_letter_path" body
      = Some (DocumentGeneration.backendPath (DocumentGeneration.coverLetterFilename g)).

Definition event_ok (e : Event) : Prop :=
  match e with
  | DocumentsGenerated r c => resume_path_ok r ∧ cover_path_ok c
  | Fetch _ | Download _ _ | AnalysisComplete _ _ _ =>
      ∀ body, App.sendEmailBody e = Some body → body_ok body
  end.

(** The invariant of the page: every path held anywhere, now or in a
    closure, is fine, and so was every send-email request so far. *)
Definition paths_invariant (a : App.State) : Prop :=
  docs_ok (Home.generatedDocs (App.home a))
  ∧ Forall docgen_ok (App.documentGeneration a :: App.renders a)
  ∧ Forall body_ok (App.sendEmailBodies a).

(** ** Generation, by kind *)

Definition endpoint (k : ArtifactStore.Kind) : string :=
  match k with
  | ArtifactStore.resume => "http://localhost:8000/api/generate-resume"
  | ArtifactStore.cover_letter => "http://localhost:8000/api/generate-cover-letter"
  end.

Definition handleGenerate (k : ArtifactStore.Kind)
  : DocumentGeneration.Props → DocumentGeneration.State →
    DocumentGeneration.Format → M DocumentGeneration.State unit :=
  match k with
  | ArtifactStore.resume => DocumentGeneration.handleGenerateResume
  | ArtifactStore.cover_letter => DocumentGeneration.handleGenerateCoverLetter
  end.

(** The path the component keeps for the documents of kind [k]. *)
Definition keptPath (k : ArtifactStore.Kind) (st : DocumentGeneration.State)
  : string :=
  match k with
  | ArtifactStore.resume => DocumentGeneration.resumePath st
  | ArtifactStore.cover_letter => DocumentGeneration.coverPath st
  end.

(** The four names a generated file can have. *)
Definition artifact_names : list string :=
  [ArtifactStore.filename ArtifactStore.resume DocumentGeneration.docx;
   ArtifactStore.filename ArtifactStore.resume DocumentGeneration.pdf;
   ArtifactStore.filename ArtifactStore.cover_letter DocumentGeneration.docx;
   ArtifactStore.filename ArtifactStore.cover_letter DocumentGeneration.pdf].

(** ** The match percentage *)

(** The ratio of the formula, with its guarded denominator. *)
Definition ratio (matching missing : nat) : Q :=
  (100 * inject_Z (Z.of_nat matching)
   / inject_Z (Z.max 1 (Z.of_nat matching + Z.of_nat missing)))%Q.

(** ** Sample data *)

Definition cv_pdf : File := mkFile "cv.pdf" "application/pdf" "%PDF-1.7".

Definition job_pdf : File := mkFile "job.pdf" "application/pdf" "%PDF-1.4".

Definition cv_docx : File :=
  mkFile "cv.docx"
    "application/vnd.openxmlformats-officedocument.wordprocessingml.document" "PK".

Definition bad_request (msg : string) : Response :=
  {| ok := false;
     json := inr (mkBody (Some msg) None None None None None);
     blob := "" |}.

Definition created (content : string) : Response :=
  {| ok := true;
     json := inl "Unexpected token";
     blob := content |}.

(** A server that answers every request well. *)
Definition server : Network :=
  λ req,
    if String.eqb (url req) "http://localhost:8000/api/upload-and-analyze" then
      Resolved
        {| ok := true;
           json := inr (mkBody None None
                          (Some (mkJobAnalysis (Some "Data Engineer") (Some "Initech")
                                   (Some "jobs@initech.example") ["Python"; "SQL"] [] []))
                          (Some (mkResumeAnalysis (Some "Ada Lovelace") ["Python"] [] [] None))
                          (Some (mkSkillGapJson ["Python"] ["SQL"] []))
                          (Some 50%Z));
           blob := "" |}
    else if String.eqb (url req) "http://localhost:8000/api/send-email" then
      Resolved
        {| ok := true;
           json := inr (mkBody None (Some "Email sent") None None None None);
           blob := "" |}
    else Resolved (created "PK").

(** Upload two files, analyse, generate both documents, send. *)
Definition session : list App.Action :=
  [App.FileChange [cv_pdf] FileUpload.resume;
   App.Drop [job_pdf] FileUpload.job;
   App.Analyze server;
   App.GenerateResume DocumentGeneration.pdf 0 server;
   App.GenerateCoverLetter DocumentGeneration.docx 0 server;
   App.SendEmail server].

(** The one request that session sends to [/api/send-email]. *)
Definition session_body : list (string * string) :=
  [("recipient_email", "jobs@initech.example");
   ("subject", "Application for Data Engineer - Ada Lovelace");
   ("body",
    EmailSender.initialBody
      (EmailSender.mkProps None "Data Engineer" (Some "Initech")
         (Some "Ada Lovelace") "" ""));
   ("resume_path", "generated/latest_resume.pdf");
   ("cover_letter_path", "generated/latest_cover_letter.docx")].

(** The same session with a reset and a second analysis before the send. *)
Definition session_after_reset : list App.Action :=
  [App.FileChange [cv_pdf] FileUpload.resume;
   App.Drop [job_pdf] FileUpload.job;
   App.Analyze server;
   App.GenerateResume DocumentGeneration.pdf 0 server;
   App.GenerateCoverLetter DocumentGeneration.docx 0 server;
   App.Reset;
   App.FileChange [cv_pdf] FileUpload.resume;
   App.Drop [job_pdf] FileUpload.job;
   App.Analyze server;
   App.SendEmail server].

(** Both generations started from the first render of the results: the
    cover letter's closure still has an empty resume path. *)
Definition session_overlapping : list App.Action :=
  [App.FileChange [cv_pdf] FileUpload.resume;
   App.Drop [job_pdf] FileUpload.job;
   App.Analyze server;
   App.GenerateResume DocumentGeneration.pdf 0 server;
   App.GenerateCoverLetter DocumentGeneration.docx 1 server;
   App.SendEmail server].

(** ** Tactics *)

(** Unfolds the monad's operations, leaving the handler's own tests. *)
Ltac run_handler :=
  cbv beta iota zeta delta
    [Effect.run mbind mret Effect.M_bind Effect.M_ret Effect.bind Effect.pure
     Effect.update Effect.emit Effect.throw Effect.fetch Effect.json_of
     Effect.try_catch Effect.try_finally Effect.when
     Effect.state Effect.trace Effect.result negb orb andb app].

(** Splits on what the network answered to [req'], the one request of the
    handler in the goal; what is left is the case of the answer [r]. *)
Ltac failed_request net r Hfailed req' :=
  let req := fresh "req" in
  let Hin := fresh "Hin" in
  let Hnet := fresh "Hnet" in
  let r' := fresh "r'" in
  let Hnet' := fresh "Hnet'" in
  let Hok' := fresh "Hok'" in
  destruct Hfailed as (req & Hin & Hnet);
  revert Hin; run_handler;
  destruct (net req') as [r'|?] eqn:Hnet'; run_handler;
  [| rewrite list_elem_of_singleton; congruence];
  destruct (ok r') eqn:Hok', (json r') eqn:Hjson; run_handler;
  rewrite ?elem_of_cons, ?elem_of_nil;
  intros Hin; assert (req = req') as -> by (destruct_or?; by simplify_eq);
  assert (r' = r) as -> by congruence;
  try congruence; clear Hin.

(** * More of the components *)

(** ** components/AnalysisResults.tsx *)

Module AnalysisResults.

(** A JavaScript [number], as far as [>=] against a constant can tell:
    a finite value, [NaN] (also what [undefined] compares as), or an
    infinity. *)
Inductive number : Type :=
  | Num (q : Q)
  | NaN
  | Infinity
  | NegInfinity.

(** [n >= k] for a finite constant [k]. *)
Definition ge (n : number) (k : Q) : bool :=
  match n with
  | Num q => Qle_bool k q
  | NaN => false
  | Infinity => true
  | NegInfinity => false
  end.

Definition getMatchColor (percentage : number) : string :=
  if ge percentage 80 then "text-green-600 bg-green-50 border-green-200"
  else if ge percentage 60 then "text-yellow-600 bg-yellow-50 border-yellow-200"
  else "text-red-600 bg-red-50 border-red-200".

Definition getMatchRing (percentage : number) : string :=
  if ge percentage 80 then "text-green-600"
  else if ge percentage 60 then "text-yellow-600"
  else "text-red-600".

(** [n <= m] on numbers, for stating monotonicity; [NaN] is not
    comparable. *)
Definition le (n m : number) : Prop :=
  match n, m with
  | NaN, _ | _, NaN => False
  | NegInfinity, _ => True
  | _, Infinity => True
  | Num p, Num q => (p <= q)%Q
  | Infinity, _ => False
  | Num _, NegInfinity => False
  end.

(** How good a colour is: red, yellow, green. *)
Definition rank (class : string) : nat :=
  if String.eqb class "text-green-600" then 2
  else if String.eqb class "text-yellow-600" then 1
  else 0.

End AnalysisResults.

(** ** More vocabulary *)

(** [!contactEmail &&] in the render of [EmailSender]: the hint 'No email
    found in job description'. *)
Definition showsNoEmailHint (p : EmailSender.Props) : bool :=
  negb (truthy_opt (EmailSender.contactEmail p)).

(** The files a request carries. *)
Definition uploads (req : Request) : list File :=
  match payload req with
  | FormData fields =>
      omap (λ kv, match kv.2 with FileField f => Some f | TextField _ => None end)
        fields
  | JsonText _ => []
  end.

Definition is_pdf (f : File) : Prop := file_type f = "application/pdf".

Definition pdf_or_none (f : option File) : Prop :=
  match f with
  | Some file => is_pdf file
  | None => True
  end.

(** Every file the page holds, and every file it ever sent, is a PDF. *)
Definition pdf_invariant (a : App.State) : Prop :=
  pdf_or_none (FileUpload.resumeFile (App.fileUpload a))
  ∧ pdf_or_none (FileUpload.jobFile (App.fileUpload a))
  ∧ pdf_or_none (Home.resume (Home.uploadedFiles (App.home a)))
  ∧ pdf_or_none (Home.jobDescription (Home.uploadedFiles (App.home a)))
  ∧ Forall (λ req, Forall is_pdf (uploads req)) (requests (App.log a)).

(** What [onAnalysisComplete] may carry for the invariant to go on. *)
Definition pdf_event (e : Event) : Prop :=
  match e with
  | Fetch req => Forall is_pdf (uploads req)
  | AnalysisComplete _ rf jf => is_pdf rf ∧ is_pdf jf
  | Download _ _ | DocumentsGenerated _ _ => True
  end.

(** The two states [Home] can be in, as far as the analysis goes. *)
Definition analysis_invariant (h : Home.State) : Prop :=
  (Home.step h = Home.upload
   ∧ Home.analysisData h = None
   ∧ Home.uploadedFiles h = Home.mkUploadedFiles None None)
  ∨ (Home.step h = Home.results
     ∧ is_Some (Home.analysisData h)
     ∧ is_Some (Home.resume (Home.uploadedFiles h))
     ∧ is_Some (Home.jobDescription (Home.uploadedFiles h))).

(** A path is empty, or the path of a file that a trace shows as
    downloaded. *)
Definition resume_downloaded (tr : list Event) (path : string) : Prop :=
  path = ""
  ∨ ∃ f content,
      path = DocumentGeneration.backendPath (DocumentGeneration.resumeFilename f)
      ∧ Download (DocumentGeneration.resumeFilename f) content ∈ tr.

Definition cover_downloaded (tr : list Event) (path : string) : Prop :=
  path = ""
  ∨ ∃ f content,
      path = DocumentGeneration.backendPath (DocumentGeneration.coverLetterFilename f)
      ∧ Download (DocumentGeneration.coverLetterFilename f) content ∈ tr.

Definition docgen_downloaded (tr : list Event) (st : DocumentGeneration.State)
  : Prop :=
  resume_downloaded tr (DocumentGeneration.resumePath st)
  ∧ cover_downloaded tr (DocumentGeneration.coverPath st).

(** Every path the page holds, now or in a closure, names a file it has
    downloaded. *)
Definition downloads_invariant (a : App.State) : Prop :=
  resume_downloaded (App.log a) (Home.resumePath (Home.generatedDocs (App.home a)))
  ∧ cover_downloaded (App.log a) (Home.coverLetterPath (Home.generatedDocs (App.home a)))
  ∧ Forall (docgen_downloaded (App.log a)) (App.documentGeneration a :: App.renders a).

(** Both attachments of a send-email body are files that a trace shows as
    downloaded. *)
Definition body_downloaded (tr : list Event) (body : list (string * string))
  : Prop :=
  ∃ f g content content',
    App.field "resume_path" body
    = Some (DocumentGeneration.backendPath (DocumentGeneration.resumeFilename f))
    ∧ App.field "cover_letter_path" body
      = Some (DocumentGeneration.backendPath (DocumentGeneration.coverLetterFilename g))
    ∧ Download (DocumentGeneration.resumeFilename f) content ∈ tr
    ∧ Download (DocumentGeneration.coverLetterFilename g) content' ∈ tr.

Definition event_downloaded (tr : list Event) (e : Event) : Prop :=
  match e with
  | DocumentsGenerated r c => resume_downloaded tr r ∧ cover_downloaded tr c
  | Fetch _ | Download _ _ | AnalysisComplete _ _ _ =>
      ∀ body, App.sendEmailBody e = Some body → body_downloaded tr body
  end.

(** Every send-email request so far attached downloaded files only. *)
Definition sent_invariant (a : App.State) : Prop :=
  Forall (body_downloaded (App.log a)) (App.sendEmailBodies a).

(** The first half of [session]: up to the results of the analysis. *)
Definition session_analysed : list App.Action :=
  [App.FileChange [cv_pdf] FileUpload.resume;
   App.Drop [job_pdf] FileUpload.job;
   App.Analyze server].

(** * Properties *)

Section JSFacts.

Lemma truthy_true s : truthy s = true ↔ s ≠ "".
Proof. destruct s; simpl; split; intros; congruence. Qed.

Lemma truthy_false s : truthy s = false ↔ s = "".
Proof. destruct s; simpl; split; intros; congruence. Qed.

Lemma or_null_nonempty v : or_null v ≠ Some "".
Proof. destruct v as [[|c s]|]; simpl; congruence. Qed.

End JSFacts.

(** ** EmailSender: the initial fields *)

Section EmailSenderInit.
Import EmailSender.

Example initial_subject_named :
  subject (init (mkProps None "Data Engineer" None (Some "Ada Lovelace") "" ""))
  = "Application for Data Engineer - Ada Lovelace".
Proof. reflexivity. Qed.

Example initial_subject_anonymous :
  subject (init (mkProps None "Data Engineer" None None "" ""))
  = "Application for Data Engineer".
Proof. reflexivity. Qed.

Example initial_recipient_found :
  recipientEmail (init (mkProps (Some "jobs@initech.example") "Data Engineer" None None "" ""))
  = "jobs@initech.example".
Proof. reflexivity. Qed.

Lemma initial_recipient (p : Props) :
  recipientEmail (init p) = recipient_when_non_null p.
Proof.
  unfold recipient_when_non_null. simpl.
  destruct (contactEmail p) as [[|c s]|]; reflexivity.
Qed.

Lemma initial_subject (p : Props) : subject (init p) = subject_when_truthy p.
Proof.
  unfold subject_when_truthy. simpl. unfold initialSubject.
  destruct (candidateName p) as [[|c s]|]; reflexivity.
Qed.

(** The component rendered alone, outside the page: its props type admits
    an empty candidate name, which is not null, and the template appends
    nothing for it. *)
Lemma initial_subject_empty_name :
  let p := mkProps None "Data Engineer" None (Some "") "" "" in
  subject (init p) = "Application for Data Engineer"
  ∧ subject_when_non_null p = "Application for Data Engineer - "
  ∧ subject (init p) ≠ subject_when_non_null p.
Proof. split_and!; [reflexivity | reflexivity | discriminate]. Qed.

(** For a candidate name that is not the empty string, appending when it is
    truthy and appending when it is not null are the same. *)
Lemma initial_subject_non_null (p : Props) :
  candidateName p ≠ Some "" →
  subject (init p) = subject_when_non_null p.
Proof.
  intros Hne. rewrite initial_subject.
  unfold subject_when_truthy, subject_when_non_null.
  destruct (candidateName p) as [[|c s]|]; [congruence | reflexivity | reflexivity].
Qed.

(** [Home] never passes an empty name down: page.tsx turns it into null, so
    on the page the subject is the one worded in terms of null. *)
Lemma initial_subject_on_page (h : Home.State) :
  subject (init (Home.emailSenderProps h))
  = subject_when_non_null (Home.emailSenderProps h).
Proof. apply initial_subject_non_null. simpl. apply or_null_nonempty. Qed.

(** C10: for the props [Home], the only caller of [EmailSender], passes in
    any of its states, the initial recipient is [contactEmail] when that is
    not null and the empty string otherwise, and the initial subject is
    ["Application for <jobTitle>"] with [" - <candidateName>"] appended
    exactly when [candidateName] is not null.  [Home] passes
    [candidate_name || null], so the name it passes is never the empty
    string; the same holds of the component for every props whose
    [candidateName] is not the empty string, and the recipient part for all
    props. *)
Theorem initial_fields :
  (∀ h : Home.State,
     let p := Home.emailSenderProps h in
     candidateName p = or_null (Home.resume_field h Http.candidate_name)
     ∧ candidateName p ≠ Some ""
     ∧ recipientEmail (init p) = recipient_when_non_null p
     ∧ subject (init p) = subject_when_non_null p)
  ∧ (∀ p : Props,
       recipientEmail (init p) = recipient_when_non_null p
       ∧ (candidateName p ≠ Some "" →
          subject (init p) = subject_when_non_null p)).
Proof.
  split.
  - intros h p. subst p. split_and!.
    + reflexivity.
    + simpl. apply or_null_nonempty.
    + apply initial_recipient.
    + apply initial_subject_on_page.
  - intros p. split; [apply initial_recipient | apply initial_subject_non_null].
Qed.

End EmailSenderInit.

(** ** Home: the reset *)

Section HomeReset.
Import Home.

Example reset_keeps_paths :
  handleReset
    (mkState results None (mkUploadedFiles (Some cv_pdf) (Some job_pdf))
       (mkGeneratedDocs "generated/latest_resume.pdf" "generated/latest_cover_letter.docx"))
  = mkState upload None (mkUploadedFiles None None)
      (mkGeneratedDocs "generated/latest_resume.pdf" "generated/latest_cover_letter.docx").
Proof. reflexivity. Qed.

(** C9: [handleReset] sets [step] to [upload] and clears [analysisData] and
    [uploadedFiles]; [generatedDocs] is left as it was, on the component and
    on the page as a whole, so the paths of earlier documents outlive a
    reset. *)
Theorem handleReset_frame (st : State) (a : App.State) :
  step (handleReset st) = upload
  ∧ analysisData (handleReset st) = None
  ∧ uploadedFiles (handleReset st) = {| resume := None; jobDescription := None |}
  ∧ generatedDocs (handleReset st) = generatedDocs st
  ∧ generatedDocs (App.home (App.step a App.Reset)) = generatedDocs (App.home a).
Proof.
  repeat split.
  simpl. case_bool_decide; reflexivity.
Qed.

(** The paths of the first analysis are still there after a reset and a
    second analysis, and the send button works at once. *)
Example paths_outlive_reset :
  generatedDocs (App.home (App.exec session_after_reset))
  = mkGeneratedDocs "generated/latest_resume.pdf" "generated/latest_cover_letter.docx"
  ∧ App.sendEmailBodies (App.exec session_after_reset) = [session_body].
Proof. split; vm_compute; reflexivity. Qed.

End HomeReset.

(** ** EmailSender: sending needs both documents *)

Section EmailSenderGuards.
Import EmailSender.

Example send_without_cover_letter :
  let p := mkProps None "Data Engineer" None None "generated/latest_resume.pdf" "" in
  let st := setRecipientEmail "jobs@initech.example" (init p) in
  run (handleSendEmail p st) server st
  = mkOutcome (setError (Some "Please generate documents before sending email") st)
      [] (inr tt).
Proof. reflexivity. Qed.

Example send_with_both :
  let p := mkProps None "Data Engineer" None None
             "generated/latest_resume.pdf" "generated/latest_cover_letter.pdf" in
  let st := setRecipientEmail "jobs@initech.example" (init p) in
  run (handleSendEmail p st) server st
  = mkOutcome (setSuccess (Some "Email sent") st) [Fetch (sendRequest p st)] (inr tt).
Proof. reflexivity. Qed.

Lemma handleSendEmail_blocked (p : Props) (cl st : State) (net : Network) :
  truthy (recipientEmail cl) && truthy (resumePath p) && truthy (coverLetterPath p)
  = false →
  ∃ msg, run (handleSendEmail p cl) net st = mkOutcome (setError (Some msg) st) [] (inr tt)
         ∧ msg ∈ ["Please enter a recipient email address";
                  "Please generate documents before sending email"].
Proof.
  intros Hguard. unfold handleSendEmail.
  destruct (truthy (recipientEmail cl)); simpl in *.
  - destruct (truthy (resumePath p)), (truthy (coverLetterPath p));
      simpl in *; try discriminate;
      (eexists; split; [reflexivity | set_solver]).
  - eexists; split; [reflexivity | set_solver].
Qed.

(** What [handleSendEmail] puts on the wire: nothing, or its one request,
    and then the recipient and both paths are there. *)
Lemma handleSendEmail_trace p cl net st :
  let tr := trace (run (handleSendEmail p cl) net st) in
  tr = []
  ∨ tr = [Fetch (sendRequest p cl)]
    ∧ truthy (recipientEmail cl) = true
    ∧ truthy (resumePath p) = true
    ∧ truthy (coverLetterPath p) = true.
Proof.
  unfold handleSendEmail.
  destruct (truthy (recipientEmail cl)); [|by left].
  destruct (truthy (resumePath p)); [|by left].
  destruct (truthy (coverLetterPath p)); [|by left].
  right. split; [|done]. run_handler.
  destruct (net _) as [r|err]; run_handler; [|done].
  destruct (ok r), (json r); by run_handler.
Qed.

(** C4: when the resume path or the cover letter path is empty,
    [handleSendEmail] only sets an error message, puts no HTTP request on
    the wire (it has no effect at all outside its state), and the send button
    is disabled whatever else the component's state is. *)
Theorem send_needs_both_documents (p : Props) (cl st : State) (net : Network) :
  resumePath p = "" ∨ coverLetterPath p = "" →
  let o := run (handleSendEmail p cl) net st in
  is_Some (error (state o))
  ∧ trace o = []
  ∧ (∀ req, Fetch req ∉ trace o)
  ∧ (∀ st', sendDisabled p st' = true).
Proof.
  intros Hmissing.
  assert (truthy (resumePath p) && truthy (coverLetterPath p) = false) as Hpaths.
  { destruct Hmissing as [-> | ->]; [reflexivity | apply andb_false_r]. }
  destruct (handleSendEmail_blocked p cl st net) as (msg & Hrun & _).
  { rewrite <- andb_assoc, Hpaths. apply andb_false_r. }
  intros o. subst o. rewrite Hrun. simpl. split_and!.
  - eauto.
  - reflexivity.
  - intros req. apply not_elem_of_nil.
  - intros st'. unfold sendDisabled.
    apply andb_false_iff in Hpaths as [-> | ->]; simpl;
      rewrite ?orb_true_r; reflexivity.
Qed.

Lemma send_needs_both_documents_witness :
  let p := mkProps None "Data Engineer" None None "generated/latest_resume.pdf" "" in
  let st := setRecipientEmail "jobs@initech.example" (init p) in
  (resumePath p = "" ∨ coverLetterPath p = "")
  ∧ is_Some (error (state (run (handleSendEmail p st) server st)))
  ∧ trace (run (handleSendEmail p st) server st) = []
  ∧ (∀ req, Fetch req ∉ trace (run (handleSendEmail p st) server st))
  ∧ (∀ st', sendDisabled p st' = true).
Proof.
  intros p st.
  assert (resumePath p = "" ∨ coverLetterPath p = "") as Hmissing
    by (right; reflexivity).
  split; [exact Hmissing|].
  exact (send_needs_both_documents p st st server Hmissing).
Defined.

(** The other direction: a request on the wire means both documents were
    there, and the recipient too. *)
Lemma send_request_has_both_documents (p : Props) (cl st : State) (net : Network) req :
  Fetch req ∈ trace (run (handleSendEmail p cl) net st) →
  req = sendRequest p cl
  ∧ recipientEmail cl ≠ "" ∧ resumePath p ≠ "" ∧ coverLetterPath p ≠ "".
Proof.
  destruct (handleSendEmail_trace p cl net st)
    as [-> | (-> & Te%truthy_true & Tr%truthy_true & Tc%truthy_true)].
  - by intros ?%elem_of_nil.
  - intros [= ->]%list_elem_of_singleton. done.
Qed.

End EmailSenderGuards.

(** ** FileUpload: only PDF files are taken *)

Section FileUploadTypes.
Import FileUpload.

Example select_pdf :
  state (run (handleFileChange [cv_pdf] resume) server init)
  = setResumeFile (Some cv_pdf) init.
Proof. reflexivity. Qed.

Example drop_docx :
  state (run (handleDrop [cv_docx] job) server (setResumeFile (Some cv_pdf) init))
  = setError (Some "Please upload PDF files only") (setResumeFile (Some cv_pdf) init).
Proof. reflexivity. Qed.

Lemma acceptFiles_pdf file files type net st :
  file_type file = "application/pdf" →
  let st' := state (run (acceptFiles (file :: files) type) net st) in
  slot type st' = Some file
  ∧ slot (other type) st' = slot (other type) st
  ∧ error st' = None.
Proof.
  intros Hpdf. unfold acceptFiles. rewrite Hpdf.
  destruct type; repeat split.
Qed.

Lemma acceptFiles_other file files type net st :
  file_type file ≠ "application/pdf" →
  run (acceptFiles (file :: files) type) net st
  = mkOutcome (setError (Some "Please upload PDF files only") st) [] (inr tt).
Proof.
  intros Hne. unfold acceptFiles.
  destruct (String.eqb_spec (file_type file) "application/pdf"); [done|].
  reflexivity.
Qed.

(** A PDF file is stored, by both handlers. *)
Lemma upload_takes_pdf file files type net st :
  file_type file = "application/pdf" →
  slot type (state (run (handleFileChange (file :: files) type) net st)) = Some file
  ∧ slot type (state (run (handleDrop (file :: files) type) net st)) = Some file.
Proof.
  intros Hpdf. split.
  - by apply acceptFiles_pdf.
  - unfold handleDrop. run_handler.
    pose proof (acceptFiles_pdf file files type net (setDragActive None st) Hpdf)
      as (Hslot & _).
    unfold run in Hslot.
    destruct (acceptFiles (file :: files) type net (setDragActive None st))
      as [st' tr [err|[]]]; exact Hslot.
Qed.

(** The handlers look at [files[0]] only: what comes after it in a drop of
    several files changes nothing. *)
Lemma upload_first_file_only file files type net st :
  run (handleFileChange (file :: files) type) net st
  = run (handleFileChange [file] type) net st
  ∧ run (handleDrop (file :: files) type) net st
    = run (handleDrop [file] type) net st.
Proof. split; reflexivity. Qed.

(** Counterexample to C6 as stated: in a drop of a PDF followed by a Word
    document, the Word document is a dropped file of another type, yet the
    job slot changes (to the PDF before it) and the error is cleared, not
    set. *)
Lemma upload_later_file_not_rejected :
  let files := [job_pdf; cv_docx] in
  let st := setError (Some "Please upload both files")
              (setResumeFile (Some cv_pdf) init) in
  let st' := state (run (handleDrop files job) server st) in
  cv_docx ∈ files
  ∧ file_type cv_docx ≠ "application/pdf"
  ∧ jobFile st = None
  ∧ jobFile st' = Some job_pdf
  ∧ error st' = None
  ∧ ¬ rejects_every_other_type handleDrop files job server st.
Proof.
  intros files st st'.
  assert (cv_docx ∈ files) as Hin.
  { apply elem_of_cons. right. apply list_elem_of_singleton. reflexivity. }
  assert (file_type cv_docx ≠ "application/pdf") as Hne by discriminate.
  split_and!; [exact Hin | exact Hne | reflexivity | reflexivity | reflexivity |].
  intros Hall. destruct (Hall cv_docx Hin Hne) as (_ & Hjob & _).
  discriminate Hjob.
Qed.

(** C6, amended: the first file of a selection or drop (the [files[0]] of
    the event, the only one the handlers look at) whose MIME type is not
    [application/pdf] is not stored: both slots keep what they held, and the
    error is set to 'Please upload PDF files only', whatever files follow it
    in the event.  This holds for [handleFileChange] and for
    [handleDrop]. *)
Theorem upload_rejects_other_types (file : File) (files : list File)
    (type : Slot) (net : Network) (st : State) :
  file_type file ≠ "application/pdf" →
  ∀ handler, handler ∈ [handleFileChange; handleDrop] →
  let st' := state (run (handler (file :: files) type) net st) in
  resumeFile st' = resumeFile st
  ∧ jobFile st' = jobFile st
  ∧ error st' = Some "Please upload PDF files only".
Proof.
  intros Hne handler Hhandler.
  pose proof (acceptFiles_other file files type net) as Hrun.
  apply elem_of_cons in Hhandler as [-> | Hhandler].
  - unfold handleFileChange. rewrite (Hrun st Hne). repeat split.
  - apply list_elem_of_singleton in Hhandler as ->.
    unfold handleDrop. run_handler.
    specialize (Hrun (setDragActive None st) Hne). unfold run in Hrun.
    rewrite Hrun. repeat split.
Qed.

Lemma upload_rejects_other_types_witness :
  let st := setResumeFile (Some cv_pdf) init in
  let st' := state (run (handleDrop [cv_docx] job) server st) in
  file_type cv_docx ≠ "application/pdf"
  ∧ resumeFile st' = Some cv_pdf
  ∧ jobFile st' = None
  ∧ error st' = Some "Please upload PDF files only".
Proof.
  intros st st'.
  assert (file_type cv_docx ≠ "application/pdf") as Hne by discriminate.
  split; [exact Hne|].
  apply (upload_rejects_other_types cv_docx [] job server st Hne handleDrop).
  apply elem_of_cons. right. apply list_elem_of_singleton. reflexivity.
Defined.

End FileUploadTypes.

(** ** A failed request never ends on the success path *)

Section Failures.

Example analyze_bad_request :
  let st := FileUpload.mkState (Some cv_pdf) (Some job_pdf) false None None in
  run (FileUpload.handleAnalyze st) (λ _, Resolved (bad_request "Could not read the resume")) st
  = mkOutcome (FileUpload.setError (Some "Could not read the resume") st)
      [Fetch (FileUpload.analyzeRequest cv_pdf job_pdf)] (inr tt).
Proof. reflexivity. Qed.

Example generate_bad_gateway :
  let p := DocumentGeneration.mkProps (Some cv_pdf) (Some job_pdf) true in
  let net : Network := λ _, Resolved (mkResponse false (inl "Unexpected token <") "") in
  state (run (DocumentGeneration.handleGenerateResume p DocumentGeneration.init
                DocumentGeneration.pdf) net DocumentGeneration.init)
  = DocumentGeneration.setError (Some "Unexpected token <") DocumentGeneration.init.
Proof. reflexivity. Qed.

Lemma handleAnalyze_failed cl st net r :
  let o := run (FileUpload.handleAnalyze cl) net st in
  answered_by o net r → ok r = false →
  FileUpload.error (state o) = Some (failure_message "Analysis failed" r)
  ∧ no_success (trace o).
Proof.
  intros o Hfailed Hok. subst o. unfold FileUpload.handleAnalyze in *.
  destruct (FileUpload.resumeFile cl) as [rf|], (FileUpload.jobFile cl) as [jf|];
    try (destruct Hfailed as (req & Hin & _); by apply elem_of_nil in Hin).
  failed_request net r Hfailed (FileUpload.analyzeRequest rf jf).
  all: unfold failure_message, no_success; rewrite Hjson.
  all: split; [reflexivity | by repeat constructor].
Qed.

Lemma handleGenerateResume_failed p cl format st net r :
  let o := run (DocumentGeneration.handleGenerateResume p cl format) net st in
  answered_by o net r → ok r = false →
  DocumentGeneration.error (state o)
  = Some (failure_message "Resume generation failed" r)
  ∧ DocumentGeneration.success (state o) = None
  ∧ no_success (trace o).
Proof.
  intros o Hfailed Hok. subst o. unfold DocumentGeneration.handleGenerateResume in *.
  destruct (DocumentGeneration.resumeFile p) as [rf|],
    (DocumentGeneration.jobDescriptionFile p) as [jf|];
    try (destruct Hfailed as (req & Hin & _); by apply elem_of_nil in Hin).
  destruct (DocumentGeneration.notifies p).
  all: failed_request net r Hfailed
    (DocumentGeneration.generateRequest
       "http://localhost:8000/api/generate-resume" rf jf format).
  all: unfold failure_message, no_success; rewrite Hjson.
  all: split_and!; [reflexivity | reflexivity | by repeat constructor].
Qed.

Lemma handleGenerateCoverLetter_failed p cl format st net r :
  let o := run (DocumentGeneration.handleGenerateCoverLetter p cl format) net st in
  answered_by o net r → ok r = false →
  DocumentGeneration.error (state o)
  = Some (failure_message "Cover letter generation failed" r)
  ∧ DocumentGeneration.success (state o) = None
  ∧ no_success (trace o).
Proof.
  intros o Hfailed Hok. subst o. unfold DocumentGeneration.handleGenerateCoverLetter in *.
  destruct (DocumentGeneration.resumeFile p) as [rf|],
    (DocumentGeneration.jobDescriptionFile p) as [jf|];
    try (destruct Hfailed as (req & Hin & _); by apply elem_of_nil in Hin).
  destruct (DocumentGeneration.notifies p).
  all: failed_request net r Hfailed
    (DocumentGeneration.generateRequest
       "http://localhost:8000/api/generate-cover-letter" rf jf format).
  all: unfold failure_message, no_success; rewrite Hjson.
  all: split_and!; [reflexivity | reflexivity | by repeat constructor].
Qed.

Lemma handleSendEmail_failed p cl st net r :
  let o := run (EmailSender.handleSendEmail p cl) net st in
  answered_by o net r → ok r = false →
  EmailSender.error (state o) = Some (failure_message "Failed to send email" r)
  ∧ EmailSender.success (state o) = None
  ∧ no_success (trace o).
Proof.
  intros o Hfailed Hok. subst o.
  destruct Hfailed as (req & Hin & Hfailed).
  destruct (send_request_has_both_documents p cl st net req Hin)
    as (-> & Hr%truthy_true & Hp%truthy_true & Hc%truthy_true).
  assert (answered_by (run (EmailSender.handleSendEmail p cl) net st) net r)
    as Hfailed' by (eexists; eauto).
  clear Hin Hfailed. unfold EmailSender.handleSendEmail in *.
  rewrite Hr, Hp, Hc in *.
  failed_request net r Hfailed' (EmailSender.sendRequest p cl).
  all: unfold failure_message, no_success; rewrite Hjson.
  all: split_and!; [reflexivity | reflexivity | by repeat constructor].
Qed.

(** C7: when the response to a handler's request has [ok] false, the
    handler records an error, the body's [detail] when it has one (the
    handler's own message otherwise, the parser's when the body is not JSON),
    leaves the success state null, and does nothing of the success path:
    [onAnalysisComplete] and [onDocumentsGenerated] are not called and no
    download is started.  This holds for [handleAnalyze],
    [handleGenerateResume], [handleGenerateCoverLetter] and
    [handleSendEmail]. *)
Theorem failure_is_never_success (net : Network) (r : Response) :
  ok r = false →
  (∀ cl st,
     let o := run (FileUpload.handleAnalyze cl) net st in
     answered_by o net r →
     FileUpload.error (state o) = Some (failure_message "Analysis failed" r)
     ∧ no_success (trace o))
  ∧ (∀ p cl format st,
       let o := run (DocumentGeneration.handleGenerateResume p cl format) net st in
       answered_by o net r →
       DocumentGeneration.error (state o)
       = Some (failure_message "Resume generation failed" r)
       ∧ DocumentGeneration.success (state o) = None
       ∧ no_success (trace o))
  ∧ (∀ p cl format st,
       let o := run (DocumentGeneration.handleGenerateCoverLetter p cl format) net st in
       answered_by o net r →
       DocumentGeneration.error (state o)
       = Some (failure_message "Cover letter generation failed" r)
       ∧ DocumentGeneration.success (state o) = None
       ∧ no_success (trace o))
  ∧ (∀ p cl st,
       let o := run (EmailSender.handleSendEmail p cl) net st in
       answered_by o net r →
       EmailSender.error (state o) = Some (failure_message "Failed to send email" r)
       ∧ EmailSender.success (state o) = None
       ∧ no_success (trace o)).
Proof.
  intros Hok. split_and!; intros.
  - by apply handleAnalyze_failed.
  - by apply handleGenerateResume_failed.
  - by apply handleGenerateCoverLetter_failed.
  - by apply handleSendEmail_failed.
Qed.

Lemma failure_is_never_success_witness :
  let r := bad_request "Could not read the resume" in
  let net : Network := λ _, Resolved r in
  let st := FileUpload.mkState (Some cv_pdf) (Some job_pdf) false None None in
  let o := run (FileUpload.handleAnalyze st) net st in
  ok r = false
  ∧ FileUpload.error (state o) = Some "Could not read the resume"
  ∧ no_success (trace o).
Proof.
  intros r net st o.
  assert (ok r = false) as Hok by reflexivity.
  split; [exact Hok|].
  apply (proj1 (failure_is_never_success net r Hok) st st).
  exists (FileUpload.analyzeRequest cv_pdf job_pdf).
  split; [apply list_elem_of_singleton|]; reflexivity.
Defined.

(** The message is the body's [detail] whenever that is a non-empty
    string. *)
Lemma failure_message_detail fallback r b d :
  json r = inr b → detail b = Some d → d ≠ "" →
  failure_message fallback r = d.
Proof.
  intros Hjson Hdetail Hd. unfold failure_message. rewrite Hjson, Hdetail.
  destruct d; [done | reflexivity].
Qed.

(** A handler never repeats its request: one call, at most one request. *)
Lemma handleAnalyze_one_request cl net st :
  (length (requests (trace (run (FileUpload.handleAnalyze cl) net st))) ≤ 1)%nat.
Proof.
  unfold FileUpload.handleAnalyze.
  destruct (FileUpload.resumeFile cl) as [rf|], (FileUpload.jobFile cl) as [jf|];
    try (simpl; lia).
  run_handler. destruct (net _) as [r|err]; run_handler; [|simpl; lia].
  destruct (ok r), (json r); run_handler; simpl; lia.
Qed.

End Failures.

(** ** The attachment paths of a send-email request *)

Section AttachmentPaths.
Import DocumentGeneration.

Example resolves_inside :
  ArtifactStore.resolves_within "generated" "generated/latest_resume.pdf" = true.
Proof. reflexivity. Qed.

Example resolves_outside :
  ArtifactStore.resolves_within "generated" "generated/../.env" = false.
Proof. reflexivity. Qed.

Example resolves_absolute :
  ArtifactStore.resolves_within "generated" "/etc/passwd" = false.
Proof. reflexivity. Qed.

Lemma resume_path_ok_truthy path :
  resume_path_ok path → truthy path = true →
  ∃ f, path = backendPath (resumeFilename f).
Proof. intros [-> | Hf]; [discriminate | done]. Qed.

Lemma cover_path_ok_truthy path :
  cover_path_ok path → truthy path = true →
  ∃ f, path = backendPath (coverLetterFilename f).
Proof. intros [-> | Hf]; [discriminate | done]. Qed.

Lemma docgen_ok_init : docgen_ok DocumentGeneration.init.
Proof. split; by left. Qed.

Lemma generated_resolves_within f :
  ArtifactStore.resolves_within "generated" (backendPath (resumeFilename f)) = true
  ∧ ArtifactStore.resolves_within "generated" (backendPath (coverLetterFilename f)) = true.
Proof. destruct f; split; reflexivity. Qed.

(** *** The handlers, one by one *)

Lemma event_ok_fetch req :
  App.sendEmailBody (Fetch req) = None → event_ok (Fetch req).
Proof. intros He body. congruence. Qed.

Lemma event_ok_download filename content : event_ok (Download filename content).
Proof. intros body [=]. Qed.

Lemma event_ok_complete data rf jf : event_ok (AnalysisComplete data rf jf).
Proof. intros body [=]. Qed.

Lemma event_ok_documents r c :
  resume_path_ok r → cover_path_ok c → event_ok (DocumentsGenerated r c).
Proof. by split. Qed.

Ltac trace_ok :=
  repeat apply List.Forall_cons; try apply List.Forall_nil;
  first [ by apply event_ok_fetch
        | apply event_ok_download
        | apply event_ok_complete
        | by apply event_ok_documents ].

Lemma handleGenerateResume_ok p cl format net st :
  docgen_ok cl → docgen_ok st →
  let o := run (handleGenerateResume p cl format) net st in
  docgen_ok (state o) ∧ Forall event_ok (trace o).
Proof.
  intros [_ Hcl] [Hr Hc] o. subst o. unfold handleGenerateResume.
  assert (resume_path_ok (backendPath (resumeFilename format))) by (right; eauto).
  destruct (resumeFile p) as [rf|], (jobDescriptionFile p) as [jf|];
    try (split; [by split | constructor]).
  run_handler.
  destruct (net _) as [r|err]; run_handler.
  - destruct (ok r), (json r), (notifies p); run_handler;
      (split; [by split | trace_ok]).
  - split; [by split | trace_ok].
Qed.

Lemma handleGenerateCoverLetter_ok p cl format net st :
  docgen_ok cl → docgen_ok st →
  let o := run (handleGenerateCoverLetter p cl format) net st in
  docgen_ok (state o) ∧ Forall event_ok (trace o).
Proof.
  intros [Hcl _] [Hr Hc] o. subst o. unfold handleGenerateCoverLetter.
  assert (cover_path_ok (backendPath (coverLetterFilename format))) by (right; eauto).
  destruct (resumeFile p) as [rf|], (jobDescriptionFile p) as [jf|];
    try (split; [by split | constructor]).
  run_handler.
  destruct (net _) as [r|err]; run_handler.
  - destruct (ok r), (json r), (notifies p); run_handler;
      (split; [by split | trace_ok]).
  - split; [by split | trace_ok].
Qed.

Lemma sendRequest_ok p cl :
  resume_path_ok (EmailSender.resumePath p) →
  cover_path_ok (EmailSender.coverLetterPath p) →
  truthy (EmailSender.resumePath p) = true →
  truthy (EmailSender.coverLetterPath p) = true →
  event_ok (Fetch (EmailSender.sendRequest p cl)).
Proof.
  intros Hr Hc Tr Tc body [= <-].
  destruct (resume_path_ok_truthy _ Hr Tr) as [f Hf].
  destruct (cover_path_ok_truthy _ Hc Tc) as [g Hg].
  exists f, g. rewrite <- Hf, <- Hg. split; reflexivity.
Qed.

Lemma handleSendEmail_ok p cl net st :
  resume_path_ok (EmailSender.resumePath p) →
  cover_path_ok (EmailSender.coverLetterPath p) →
  Forall event_ok (trace (run (EmailSender.handleSendEmail p cl) net st)).
Proof.
  intros Hr Hc.
  destruct (handleSendEmail_trace p cl net st) as [-> | (-> & _ & Tr & Tc)].
  - constructor.
  - repeat constructor. by apply sendRequest_ok.
Qed.

Lemma acceptFiles_trace files type net st :
  trace (run (FileUpload.acceptFiles files type) net st) = [].
Proof.
  unfold FileUpload.acceptFiles. destruct files as [|file files]; [done|].
  destruct (String.eqb _ _); [|done]. by destruct type.
Qed.

Lemma handleFileChange_ok files type net st :
  Forall event_ok (trace (run (FileUpload.handleFileChange files type) net st)).
Proof.
  unfold FileUpload.handleFileChange. rewrite acceptFiles_trace. constructor.
Qed.

Lemma handleDrop_ok files type net st :
  Forall event_ok (trace (run (FileUpload.handleDrop files type) net st)).
Proof.
  unfold FileUpload.handleDrop. run_handler.
  pose proof (acceptFiles_trace files type net
                (FileUpload.setDragActive None st)) as Htr.
  unfold run in Htr.
  destruct (FileUpload.acceptFiles files type net _) as [st' tr res].
  simpl in Htr. subst tr. destruct res; constructor.
Qed.

Lemma handleDrag_ok etype type net st :
  Forall event_ok (trace (run (FileUpload.handleDrag etype type) net st)).
Proof.
  unfold FileUpload.handleDrag.
  destruct (_ || _); [constructor|]. destruct (String.eqb _ _); constructor.
Qed.

Lemma handleAnalyze_ok cl net st :
  Forall event_ok (trace (run (FileUpload.handleAnalyze cl) net st)).
Proof.
  unfold FileUpload.handleAnalyze.
  destruct (FileUpload.resumeFile cl) as [rf|], (FileUpload.jobFile cl) as [jf|];
    try constructor.
  run_handler.
  destruct (net _) as [r|err]; run_handler; [|trace_ok].
  destruct (ok r), (json r); run_handler; trace_ok.
Qed.

(** *** The page *)

Lemma deliver_ok tr : ∀ h,
  docs_ok (Home.generatedDocs h) → Forall event_ok tr →
  docs_ok (Home.generatedDocs (foldl App.deliver h tr)).
Proof.
  induction tr as [|e tr IH]; intros h Hh Htr; [done|].
  apply Forall_cons in Htr as [He Htr]. simpl. apply IH; [|done].
  destruct e; done.
Qed.

Lemma sendEmailBodies_ok tr :
  Forall event_ok tr → Forall body_ok (omap App.sendEmailBody tr).
Proof.
  induction 1 as [|e tr He _ IH]; [constructor|]. simpl.
  destruct (App.sendEmailBody e) as [body|] eqn:Hbody; [|done].
  constructor; [|done].
  destruct e; try discriminate. by apply He.
Qed.

Lemma rerender_ok a h fu dg dgs es tr :
  paths_invariant a → docs_ok (Home.generatedDocs h) →
  Forall docgen_ok (dg :: dgs) → Forall event_ok tr →
  paths_invariant (App.rerender a h fu dg dgs es tr).
Proof.
  intros (_ & _ & Hlog) Hh Hdg Htr. split_and!.
  - done.
  - simpl. destruct (_ && _); [done|].
    repeat constructor; apply docgen_ok_init.
  - unfold App.sendEmailBodies. simpl. rewrite omap_app.
    apply Forall_app. split; [done | by apply sendEmailBodies_ok].
Qed.

Lemma closure_ok a age :
  paths_invariant a → docgen_ok (App.closure a age).
Proof.
  intros (_ & Hdg & _). unfold App.closure.
  destruct (_ !! age) as [cl|] eqn:Hage; simpl.
  - eapply Forall_lookup_1; eauto.
  - by apply Forall_cons in Hdg as [? _].
Qed.

Lemma onFileUpload_ok a m net :
  paths_invariant a →
  (∀ st, Forall event_ok (trace (run m net st))) →
  paths_invariant (App.onFileUpload a m net).
Proof.
  intros Ha Hm. unfold App.onFileUpload.
  destruct (Home.showsFileUpload _); [|done].
  destruct Ha as (Hh & Hdg & Hlog).
  apply rerender_ok; [done | by apply deliver_ok | done | done].
Qed.

Lemma onDocumentGeneration_ok a m net :
  paths_invariant a →
  (∀ st, docgen_ok st →
         docgen_ok (state (run m net st)) ∧ Forall event_ok (trace (run m net st))) →
  paths_invariant (App.onDocumentGeneration a m net).
Proof.
  intros Ha Hm. unfold App.onDocumentGeneration.
  destruct (Home.showsDocumentGeneration _); [|done].
  pose proof Ha as (Hh & Hdg & Hlog).
  pose proof Hdg as [Hcur _]%Forall_cons.
  destruct (Hm _ Hcur) as [Hst Htr].
  apply rerender_ok; [done | by apply deliver_ok | by constructor | done].
Qed.

Lemma onEmailSender_ok a m net :
  paths_invariant a →
  (∀ cl st, Forall event_ok (trace (run (m cl) net st))) →
  paths_invariant (App.onEmailSender a m net).
Proof.
  intros Ha Hm. unfold App.onEmailSender.
  destruct (App.emailSender a) as [es|]; [|done].
  pose proof Ha as (Hh & Hdg & Hlog).
  apply rerender_ok; [done | by apply deliver_ok | done | done].
Qed.

Lemma step_ok a act : paths_invariant a → paths_invariant (App.step a act).
Proof.
  intros Ha. pose proof Ha as (Hh & Hdg & Hlog).
  destruct act; simpl.
  - apply onFileUpload_ok; [done|]. intros. apply handleDrag_ok.
  - apply onFileUpload_ok; [done|]. intros. apply handleDrop_ok.
  - apply onFileUpload_ok; [done|]. intros. apply handleFileChange_ok.
  - destruct (_ || _); [done|].
    apply onFileUpload_ok; [done|]. intros. apply handleAnalyze_ok.
  - destruct (loadingResume _); [done|].
    apply onDocumentGeneration_ok; [done|]. intros st Hst.
    apply handleGenerateResume_ok; [by apply closure_ok | done].
  - destruct (loadingCover _); [done|].
    apply onDocumentGeneration_ok; [done|]. intros st Hst.
    apply handleGenerateCoverLetter_ok; [by apply closure_ok | done].
  - case_bool_decide; [|done].
    apply rerender_ok; [done | done | done | constructor].
  - apply onEmailSender_ok; [done|]. constructor.
  - apply onEmailSender_ok; [done|]. constructor.
  - apply onEmailSender_ok; [done|]. constructor.
  - destruct (App.emailSender a) as [es|] eqn:Hes; [|done].
    destruct (EmailSender.sendDisabled _ _); [done|].
    apply onEmailSender_ok; [done|]. intros cl st.
    apply handleSendEmail_ok; apply Hh.
Qed.

Lemma init_ok : paths_invariant App.init.
Proof.
  split_and!.
  - split; by left.
  - repeat constructor; apply docgen_ok_init.
  - constructor.
Qed.

Lemma exec_ok acts : paths_invariant (App.exec acts).
Proof.
  unfold App.exec. generalize init_ok. generalize App.init.
  induction acts as [|act acts IH]; intros a Ha; [done|].
  simpl. apply IH. by apply step_ok.
Qed.

Example session_sends : App.sendEmailBodies (App.exec session) = [session_body].
Proof. vm_compute. reflexivity. Qed.

(** When the generations overlap, the later notification drops the resume
    path; nothing is sent then. *)
Example overlapping_sends_nothing :
  Home.generatedDocs (App.home (App.exec session_overlapping))
  = Home.mkGeneratedDocs "" "generated/latest_cover_letter.docx"
  ∧ App.sendEmailBodies (App.exec session_overlapping) = [].
Proof. split; vm_compute; reflexivity. Qed.

(** C5: in every session of the page, each request sent to
    [/api/send-email] carries as [resume_path] a path
    [generated/latest_resume.<format>] and as [cover_letter_path] a path
    [generated/latest_cover_letter.<format>], with [<format>] one of [docx]
    and [pdf]; both resolve within the directory [generated]. *)
Theorem send_email_paths (acts : list App.Action) (body : list (string * string)) :
  body ∈ App.sendEmailBodies (App.exec acts) →
  ∃ f g : Format,
    App.field "resume_path" body
    = Some ("generated/latest_resume." +:+ format_string f)
    ∧ App.field "cover_letter_path" body
      = Some ("generated/latest_cover_letter." +:+ format_string g)
    ∧ ArtifactStore.resolves_within "generated"
        ("generated/latest_resume." +:+ format_string f) = true
    ∧ ArtifactStore.resolves_within "generated"
        ("generated/latest_cover_letter." +:+ format_string g) = true.
Proof.
  intros Hin.
  destruct (exec_ok acts) as (_ & _ & Hlog).
  destruct (proj1 (Forall_forall _ _) Hlog body Hin) as (f & g & Hf & Hg).
  exists f, g. split_and!; [exact Hf | exact Hg | |].
  - apply (generated_resolves_within f).
  - apply (generated_resolves_within g).
Qed.

Lemma send_email_paths_witness :
  session_body ∈ App.sendEmailBodies (App.exec session)
  ∧ ∃ f g : Format,
      App.field "resume_path" session_body
      = Some ("generated/latest_resume." +:+ format_string f)
      ∧ App.field "cover_letter_path" session_body
        = Some ("generated/latest_cover_letter." +:+ format_string g)
      ∧ ArtifactStore.resolves_within "generated"
          ("generated/latest_resume." +:+ format_string f) = true
      ∧ ArtifactStore.resolves_within "generated"
          ("generated/latest_cover_letter." +:+ format_string g) = true.
Proof.
  assert (session_body ∈ App.sendEmailBodies (App.exec session)) as Hsent.
  { rewrite session_sends. apply list_elem_of_singleton. reflexivity. }
  split; [exact Hsent|].
  exact (send_email_paths session session_body Hsent).
Defined.

End AttachmentPaths.

(** ** The latest artifacts *)

Section LatestArtifacts.
Import DocumentGeneration ArtifactStore.

Example artifact_names_spelled :
  artifact_names
  = ["latest_resume.docx"; "latest_resume.pdf";
     "latest_cover_letter.docx"; "latest_cover_letter.pdf"].
Proof. reflexivity. Qed.

Example second_generation_wins :
  generations [(resume, pdf, "first"); (cover_letter, pdf, "letter");
               (resume, pdf, "second")]
  = {[ "latest_resume.pdf" := "second"; "latest_cover_letter.pdf" := "letter" ]}.
Proof. apply map_eq. intros name. vm_compute. reflexivity. Qed.

Example generate_resume_pdf :
  let p := mkProps (Some cv_pdf) (Some job_pdf) true in
  run (handleGenerateResume p init pdf) server init
  = mkOutcome
      (setSuccess (Some "✅ Resume: latest_resume.pdf")
         (setResumePath "generated/latest_resume.pdf" init))
      [Fetch (generateRequest "http://localhost:8000/api/generate-resume"
                cv_pdf job_pdf pdf);
       Download "latest_resume.pdf" "PK";
       DocumentsGenerated "generated/latest_resume.pdf" ""]
      (inr tt).
Proof. reflexivity. Qed.

Lemma artifact_names_NoDup : NoDup artifact_names.
Proof. unfold artifact_names. by apply (bool_decide_unpack _). Qed.

Lemma filename_in_names k f : filename k f ∈ artifact_names.
Proof. destruct k, f; unfold artifact_names; set_solver. Qed.

Lemma filename_inj k f k' f' : filename k f = filename k' f' → (k, f) = (k', f').
Proof. destruct k, f, k', f'; intros [=]; reflexivity. Qed.

Lemma generations_snoc gens k f content :
  generations (gens ++ [(k, f, content)]) = generate k f content (generations gens).
Proof. unfold generations. by rewrite foldl_snoc. Qed.

Lemma latest_snoc_same gens k f content :
  latest k f (gens ++ [(k, f, content)]) = Some content.
Proof.
  unfold latest. rewrite filter_app, filter_cons_True, filter_nil by done.
  by rewrite last_snoc.
Qed.

Lemma latest_snoc_other gens k f k' f' content :
  (k', f') ≠ (k, f) →
  latest k f (gens ++ [(k', f', content)]) = latest k f gens.
Proof.
  intros Hne. unfold latest.
  rewrite filter_app, filter_cons_False, filter_nil by done.
  by rewrite app_nil_r.
Qed.

(** The file of [(k, f)] holds what the latest generation of [(k, f)]
    wrote, and there is none before the first. *)
Lemma generations_lookup gens k f :
  generations gens !! filename k f = latest k f gens.
Proof.
  induction gens as [|[[k' f'] content] gens IH] using rev_ind; [done|].
  rewrite generations_snoc. unfold generate.
  destruct (decide ((k', f') = (k, f))) as [[= -> ->] | Hne].
  - by rewrite lookup_insert_eq, latest_snoc_same.
  - rewrite lookup_insert_ne, latest_snoc_other by (done || by intros ?%filename_inj).
    exact IH.
Qed.

Lemma generations_dom gens :
  dom (generations gens) ⊆ list_to_set artifact_names.
Proof.
  induction gens as [|[[k f] content] gens IH] using rev_ind.
  - unfold generations. simpl. rewrite dom_empty_L. apply empty_subseteq.
  - rewrite generations_snoc. unfold generate. rewrite dom_insert_L.
    apply union_least; [|exact IH].
    apply singleton_subseteq_l, elem_of_list_to_set, filename_in_names.
Qed.

Lemma generations_size gens : (size (generations gens) ≤ 4)%nat.
Proof.
  rewrite <- size_dom.
  etrans; [apply subseteq_size, generations_dom|].
  by rewrite size_list_to_set by apply artifact_names_NoDup.
Qed.

(** What the client does with a successful answer: it offers the file for
    download under the fixed name and keeps the path under [generated/]. *)
Lemma handleGenerate_success k p cl format net st rf jf r :
  resumeFile p = Some rf → jobDescriptionFile p = Some jf →
  net (generateRequest (endpoint k) rf jf format) = Resolved r →
  ok r = true →
  let o := run (handleGenerate k p cl format) net st in
  Download (filename k format) (blob r) ∈ trace o
  ∧ keptPath k (state o) = "generated/" +:+ filename k format.
Proof.
  intros Hrf Hjf Hnet Hok o. subst o.
  destruct k; simpl in Hnet; simpl handleGenerate;
    [unfold handleGenerateResume | unfold handleGenerateCoverLetter];
    rewrite Hrf, Hjf; run_handler; rewrite Hnet; run_handler; rewrite Hok;
    run_handler; destruct (notifies p); run_handler;
    (split; [set_solver | done]).
Qed.

(** C3: a successful generation of kind [k] and format [f] is saved under
    the name [latest_resume.<f>] or [latest_cover_letter.<f>] and kept as
    [generated/<name>]; the four names differ; after any history of
    generations the directory holds files of these names only, at most four,
    and under the name of [(k, f)] the content of the latest generation of
    [(k, f)]: a generation overwrites the one before. *)
Theorem latest_artifact_per_kind_and_format
    (k : Kind) (f : Format) (p : Props) (cl st : State) (net : Network)
    (rf jf : File) (r : Response) (gens : list (Kind * Format * string)) :
  resumeFile p = Some rf → jobDescriptionFile p = Some jf →
  net (generateRequest (endpoint k) rf jf f) = Resolved r →
  ok r = true →
  let o := run (handleGenerate k p cl f) net st in
  let name :=
    match k with
    | resume => "latest_resume." +:+ format_string f
    | cover_letter => "latest_cover_letter." +:+ format_string f
    end in
  Download name (blob r) ∈ trace o
  ∧ keptPath k (state o) = "generated/" +:+ name
  ∧ filename k f = name
  ∧ NoDup [filename resume docx; filename resume pdf;
           filename cover_letter docx; filename cover_letter pdf]
  ∧ dom (generations gens)
    ⊆ {[ "latest_resume.docx"; "latest_resume.pdf";
         "latest_cover_letter.docx"; "latest_cover_letter.pdf" ]}
  ∧ (size (generations gens) ≤ 4)%nat
  ∧ generations gens !! name = latest k f gens
  ∧ generations (gens ++ [(k, f, blob r)]) !! name = Some (blob r)
  ∧ generate k f (blob r) (generations gens)
    = generate k f (blob r) (delete name (generations gens)).
Proof.
  intros Hrf Hjf Hnet Hok o name.
  assert (filename k f = name) as Hname by (by destruct k).
  destruct (handleGenerate_success k p cl f net st rf jf r Hrf Hjf Hnet Hok)
    as [Hdownload Hkept].
  rewrite <- Hname. split_and!.
  - exact Hdownload.
  - exact Hkept.
  - reflexivity.
  - apply artifact_names_NoDup.
  - pose proof (generations_dom gens) as Hdom.
    unfold artifact_names in Hdom. simpl in Hdom. set_solver.
  - apply generations_size.
  - apply generations_lookup.
  - by rewrite generations_lookup, latest_snoc_same.
  - unfold generate. by rewrite insert_delete_eq.
Qed.

Lemma latest_artifact_per_kind_and_format_witness :
  let p := mkProps (Some cv_pdf) (Some job_pdf) true in
  let r := created "PK" in
  let gens := [(resume, pdf, "first"); (cover_letter, docx, "letter")] in
  let o := run (handleGenerateResume p init pdf) server init in
  (resumeFile p = Some cv_pdf ∧ jobDescriptionFile p = Some job_pdf
   ∧ server (generateRequest (endpoint resume) cv_pdf job_pdf pdf) = Resolved r
   ∧ ok r = true)
  ∧ Download "latest_resume.pdf" "PK" ∈ trace o
  ∧ resumePath (state o) = "generated/latest_resume.pdf"
  ∧ generations gens !! "latest_resume.pdf" = Some "first"
  ∧ generations (gens ++ [(resume, pdf, "PK")]) !! "latest_resume.pdf" = Some "PK".
Proof.
  intros p r gens o.
  assert (resumeFile p = Some cv_pdf) as Hrf by reflexivity.
  assert (jobDescriptionFile p = Some job_pdf) as Hjf by reflexivity.
  assert (server (generateRequest (endpoint resume) cv_pdf job_pdf pdf) = Resolved r)
    as Hnet by reflexivity.
  assert (ok r = true) as Hok by reflexivity.
  split; [by split_and!|].
  pose proof (latest_artifact_per_kind_and_format resume pdf p init init server
                cv_pdf job_pdf r gens Hrf Hjf Hnet Hok)
    as (Hdownload & Hkept & _ & _ & _ & _ & Hlatest & Hnew & _).
  split_and!.
  - exact Hdownload.
  - exact Hkept.
  - etrans; [exact Hlatest | reflexivity].
  - exact Hnew.
Defined.

End LatestArtifacts.

(** ** The skill gap *)

Section SkillGapFacts.
Import SkillGap.

Example gap_python_sql mode :
  compute_gap mode ["Python"; "SQL"] [] ["Python"]
  = {| matching_skills := ["Python"]; partial_skills := [];
       missing_skills := ["SQL"]; match_percentage := 50 |}.
Proof. destruct mode; vm_compute; reflexivity. Qed.

Example gap_letter_case :
  compute_gap HalfEven ["python"; "Sql"; "Go"] ["Rust"] ["PYTHON"; "sql"; "Rust"]
  = {| matching_skills := ["python"; "Sql"]; partial_skills := [];
       missing_skills := ["Go"]; match_percentage := 67 |}.
Proof. vm_compute. reflexivity. Qed.

(** One skill in eight is 12.5 percent: the two tie rules part here. *)
Example tie_rules :
  percentage HalfUp 1 7 = 13%Z ∧ percentage HalfEven 1 7 = 12%Z.
Proof. split; vm_compute; reflexivity. Qed.

Example gap_empty mode preferred :
  compute_gap mode [] preferred []
  = {| matching_skills := []; partial_skills := [];
       missing_skills := []; match_percentage := 0 |}.
Proof. destruct mode; reflexivity. Qed.

(** [round] gives a nearest integer, under both tie rules. *)
Lemma round_nearest mode q :
  (inject_Z (round mode q) - (1 # 2) <= q
   ∧ q <= inject_Z (round mode q) + (1 # 2))%Q.
Proof.
  unfold round.
  pose proof (Qfloor_le q) as Hle. pose proof (Qlt_floor q) as Hlt.
  rewrite inject_Z_plus in Hlt. change (inject_Z 1) with 1%Q in Hlt.
  destruct (Qcompare_spec (q - inject_Z (Qfloor q)) (1 # 2)) as [Heq|Hlo|Hhi].
  - destruct mode; [|destruct (Z.even (Qfloor q))];
      rewrite ?inject_Z_plus; change (inject_Z 1) with 1%Q; split; lra.
  - split; lra.
  - rewrite inject_Z_plus. change (inject_Z 1) with 1%Q. split; lra.
Qed.

(** An integer goes to itself. *)
Lemma round_integer mode z : round mode (inject_Z z) = z.
Proof.
  unfold round. rewrite Qfloor_Z.
  destruct (Qcompare_spec (inject_Z z - inject_Z z) (1 # 2)) as [Heq|Hlo|Hhi];
    [lra | reflexivity | lra].
Qed.

Lemma ratio_bounds matching missing :
  (0 <= ratio matching missing ∧ ratio matching missing <= 100)%Q.
Proof.
  unfold ratio.
  set (m := Z.of_nat matching). set (t := Z.max 1 (m + Z.of_nat missing)).
  assert (0 <= m)%Z as Hm by (subst m; lia).
  assert (0 < t)%Z as Ht by (subst t; lia).
  assert (m <= t)%Z as Hmt by (subst t m; lia).
  rewrite Zle_Qle in Hm, Hmt. rewrite Zlt_Qlt in Ht.
  change (inject_Z 0) with 0%Q in *.
  split.
  - apply Qle_shift_div_l; [done|]. lra.
  - apply Qle_shift_div_r; [done|]. lra.
Qed.

Lemma Z_le_of_Q_half (z bound : Z) :
  (inject_Z z <= inject_Z bound + (1 # 2))%Q → (z <= bound)%Z.
Proof.
  intros Hq. destruct (Z_le_gt_dec z bound) as [|Hgt]; [done|].
  assert (bound + 1 <= z)%Z as Hz by lia.
  rewrite Zle_Qle, inject_Z_plus in Hz. change (inject_Z 1) with 1%Q in Hz. lra.
Qed.

Lemma Z_ge_of_Q_half (z bound : Z) :
  (inject_Z bound - (1 # 2) <= inject_Z z)%Q → (bound <= z)%Z.
Proof.
  intros Hq. destruct (Z_le_gt_dec bound z) as [|Hgt]; [done|].
  assert (z + 1 <= bound)%Z as Hz by lia.
  rewrite Zle_Qle, inject_Z_plus in Hz. change (inject_Z 1) with 1%Q in Hz. lra.
Qed.

Lemma round_ratio_range mode matching missing :
  (0 <= round mode (ratio matching missing) <= 100)%Z.
Proof.
  destruct (round_nearest mode (ratio matching missing)) as [Hlo Hhi].
  destruct (ratio_bounds matching missing) as [H0 H100].
  split.
  - apply Z_ge_of_Q_half. change (inject_Z 0) with 0%Q. lra.
  - apply Z_le_of_Q_half. change (inject_Z 100) with 100%Q. lra.
Qed.

(** The clamp of the formula never cuts. *)
Lemma percentage_unclamped mode matching missing :
  percentage mode matching missing = round mode (ratio matching missing).
Proof.
  unfold percentage, clamp. fold (ratio matching missing).
  pose proof (round_ratio_range mode matching missing). lia.
Qed.

Lemma percentage_none mode : percentage mode 0 0 = 0%Z.
Proof. destruct mode; reflexivity. Qed.

(** C1: the match percentage of a computed gap is the rounded ratio of the
    formula, clamped to [0,100] (the clamp cuts nothing); it is an integer of
    [0,100] next to the ratio, and it is 0 when there is neither a matching
    nor a missing skill. *)
Theorem match_percentage_formula (mode : Rounding)
    (required_skills preferred_skills resume_skills : list string) :
  let g := compute_gap mode required_skills preferred_skills resume_skills in
  let matching := length (matching_skills g) in
  let missing := length (missing_skills g) in
  match_percentage g
  = clamp 0 100
      (round mode
         (100 * inject_Z (Z.of_nat matching)
          / inject_Z (Z.max 1 (Z.of_nat matching + Z.of_nat missing)))%Q)
  ∧ match_percentage g = round mode (ratio matching missing)
  ∧ (0 <= match_percentage g <= 100)%Z
  ∧ (inject_Z (match_percentage g) - (1 # 2) <= ratio matching missing
     ∧ ratio matching missing <= inject_Z (match_percentage g) + (1 # 2))%Q
  ∧ (matching_skills g = [] → missing_skills g = [] → match_percentage g = 0%Z).
Proof.
  intros g matching missing.
  assert (match_percentage g = percentage mode matching missing) as Hg
    by reflexivity.
  split; [|split; [|split; [|split]]].
  - exact Hg.
  - rewrite Hg. apply percentage_unclamped.
  - rewrite Hg, percentage_unclamped. apply round_ratio_range.
  - rewrite Hg, percentage_unclamped. apply round_nearest.
  - intros Hmatching Hmissing. rewrite Hg. subst matching missing.
    rewrite Hmatching, Hmissing. apply percentage_none.
Qed.

Lemma matching_on_resume mode required preferred resume skill :
  skill ∈ matching_skills (compute_gap mode required preferred resume) ↔
  skill ∈ required ∧ on_resume resume skill.
Proof. simpl. rewrite list_elem_of_filter. tauto. Qed.

Lemma missing_not_on_resume mode required preferred resume skill :
  skill ∈ missing_skills (compute_gap mode required preferred resume) ↔
  skill ∈ required ∧ ¬ on_resume resume skill.
Proof. simpl. rewrite list_elem_of_filter. tauto. Qed.

(** Every required skill is either matching or missing. *)
Lemma required_split mode required preferred resume :
  let g := compute_gap mode required preferred resume in
  (length (matching_skills g) + length (missing_skills g) = length required)%nat.
Proof.
  simpl. induction required as [|skill required IH]; [done|].
  rewrite !filter_cons.
  destruct (decide (on_resume resume skill)), (decide (¬ on_resume resume skill));
    simpl; try lia; tauto.
Qed.

(** C2: no skill is both in [matching_skills] and in [missing_skills] of a
    computed gap: the two lists are disjoint, as lists and as sets. *)
Theorem matching_missing_disjoint (mode : Rounding)
    (required_skills preferred_skills resume_skills : list string) :
  let g := compute_gap mode required_skills preferred_skills resume_skills in
  matching_skills g ## missing_skills g
  ∧ (list_to_set (matching_skills g) ∩ list_to_set (missing_skills g)
     : gset string) = ∅.
Proof.
  intros g.
  assert (matching_skills g ## missing_skills g) as Hdisjoint.
  { intros skill [_ Hon]%matching_on_resume [_ Hoff]%missing_not_on_resume.
    by apply Hoff. }
  split; [exact Hdisjoint|].
  apply set_eq. intros skill.
  rewrite elem_of_intersection, !elem_of_list_to_set, elem_of_empty.
  split; [|done]. intros [Hin Hout]. exact (Hdisjoint skill Hin Hout).
Qed.

End SkillGapFacts.

(** ** The retry policy of the analysis client *)

Section RetryPolicy.
Import AIClient.

Example upstream_down :
  analyze 100 (λ _, Timeout)
  = ([Call 0; Sleep 100; Call 1; Sleep 200; Call 2], inl AIServiceUnavailable).
Proof. reflexivity. Qed.

Example upstream_malformed :
  analyze 100 (λ _, Reply None) = ([Call 0], inl MalformedAIResponse).
Proof. reflexivity. Qed.

Example upstream_recovers :
  analyze 100 (λ i, if decide (i = 0)%nat then Timeout else Reply (Some "Data Engineer"))
  = ([Call 0; Sleep 100; Call 1], inr "Data Engineer").
Proof. reflexivity. Qed.

Example upstream_malformed_after_timeout :
  analyze 100 (λ i, if decide (i = 0)%nat then Timeout else Reply None)
  = ([Call 0; Sleep 100; Call 1], inl MalformedAIResponse).
Proof. reflexivity. Qed.

(** What a run of [attempt] looks like: [k] retries, each after a transient
    failure and a wait, and then the call that ends it. *)
Lemma attempt_shape base upstream n : ∀ i,
  ∃ k, (k ≤ n)%nat
    ∧ calls (attempt base upstream n i).1 = seq i (S k)
    ∧ sleeps (attempt base upstream n i).1 = backoff base <$> seq i k
    ∧ (attempt base upstream n i).1 = retry_trace base i k
    ∧ (∀ j, (i ≤ j < i + k)%nat → upstream j = Timeout)
    ∧ match upstream (i + k)%nat with
      | Timeout => k = n ∧ (attempt base upstream n i).2 = inl AIServiceUnavailable
      | Reply job_title => (attempt base upstream n i).2 = validate job_title
      end.
Proof.
  induction n as [|n IH]; intros i; simpl.
  - exists 0%nat. unfold retry_trace. rewrite Nat.add_0_r.
    destruct (upstream i) eqn:Hi; simpl; repeat split; (done || lia).
  - destruct (upstream i) eqn:Hi.
    + destruct (IH (S i)) as (k & Hk & Hcalls & Hsleeps & Htrace & Hbefore & Hend).
      destruct (attempt base upstream n (S i)) as [tr res]. simpl in *.
      exists (S k). split; [|split; [|split; [|split; [|split]]]].
      * lia.
      * by rewrite Hcalls.
      * by rewrite Hsleeps.
      * rewrite Htrace. unfold retry_trace. simpl.
        by replace (i + S k)%nat with (S (i + k)) by lia.
      * intros j Hj. destruct (decide (j = i)) as [->|]; [done|].
        apply Hbefore. lia.
      * replace (i + S k)%nat with (S (i + k)) by lia.
        destruct (upstream (S (i + k))); [|done].
        destruct Hend as [-> ->]. done.
    + exists 0%nat. unfold retry_trace. rewrite Nat.add_0_r, Hi. simpl.
      repeat split; (done || lia).
Qed.

Lemma calls_length_retries tr k i :
  calls tr = seq i (S k) → retries tr = k.
Proof. unfold retries. intros ->. rewrite length_seq. lia. Qed.

Lemma validate_available job_title : validate job_title ≠ inl AIServiceUnavailable.
Proof. by destruct job_title. Qed.

(** C8: [analyze] calls the service once and retries at most twice, so
    there is no fourth call; it waits [base], then twice [base], before the
    retries; a call is repeated only after a transient network failure, so a
    malformed reply (or a good one) ends the run; and
    [AIServiceUnavailable] is the result exactly when all three calls
    failed.  The run is the failed calls, each followed by its wait, and
    then the call that settles it: a transient failure of call 0 or 1 is
    always followed by the next call, a reply is never followed by a call
    and the result is its validation, that is the job title of a good reply
    and [MalformedAIResponse] for a malformed one. *)
Theorem analyze_retry_policy (base : nat) (upstream : nat → Upstream) :
  let tr := (analyze base upstream).1 in
  let res := (analyze base upstream).2 in
  (retries tr ≤ 2)%nat
  ∧ calls tr = seq 0 (S (retries tr))
  ∧ (Call 3 ∉ tr)
  ∧ sleeps tr = backoff base <$> seq 0 (retries tr)
  ∧ (∀ i, Call (S i) ∈ tr → upstream i = Timeout)
  ∧ (∀ i, upstream i = Reply None → Call (S i) ∉ tr)
  ∧ (res = inl AIServiceUnavailable ↔
     upstream 0%nat = Timeout ∧ upstream 1%nat = Timeout ∧ upstream 2%nat = Timeout)
  ∧ (res = inl AIServiceUnavailable → retries tr = 2%nat)
  ∧ tr = retry_trace base 0 (retries tr)
  ∧ (∀ i, (i < 2)%nat → Call i ∈ tr → upstream i = Timeout → Call (S i) ∈ tr)
  ∧ (∀ i job_title, Call i ∈ tr → upstream i = Reply job_title →
       i = retries tr ∧ (Call (S i) ∉ tr) ∧ res = validate job_title)
  ∧ res = match upstream (retries tr) with
          | Timeout => inl AIServiceUnavailable
          | Reply (Some title) => inr title
          | Reply None => inl MalformedAIResponse
          end.
Proof.
  intros tr res. subst tr res. unfold analyze.
  destruct (attempt_shape base upstream max_retries 0%nat)
    as (k & Hk & Hcalls & Hsleeps & Htrace & Hbefore & Hend).
  pose proof (calls_length_retries _ _ _ Hcalls) as Hretries.
  set (tr := (attempt base upstream max_retries 0).1) in *.
  set (res := (attempt base upstream max_retries 0).2) in *.
  unfold max_retries in *. simpl in Hend.
  assert (∀ i, Call i ∈ tr ↔ i ∈ calls tr) as Hcall.
  { intros i. unfold calls. rewrite list_elem_of_omap. split.
    - intros Hin. exists (Call i). done.
    - intros ([j|d] & Hin & [= ->]). done. }
  assert (∀ i, Call i ∈ tr ↔ (i ≤ k)%nat) as Hcalled.
  { intros i. rewrite Hcall, Hcalls, elem_of_seq. lia. }
  assert (∀ i, Call (S i) ∈ tr → upstream i = Timeout) as Hrepeat.
  { intros i Hin%Hcalled. apply Hbefore. lia. }
  assert (∀ i job_title, Call i ∈ tr → upstream i = Reply job_title → i = k)
    as Hlast.
  { intros i job_title Hin%Hcalled Hi.
    destruct (decide (i = k)) as [|Hne]; [done|].
    rewrite Hbefore in Hi by lia. discriminate. }
  rewrite Hretries. split_and!.
  - exact Hk.
  - exact Hcalls.
  - intros Hin%Hcalled. lia.
  - exact Hsleeps.
  - exact Hrepeat.
  - intros i Hi Hin. apply Hrepeat in Hin. congruence.
  - split.
    + intros Hres.
      destruct (upstream k) eqn:Hup;
        [|rewrite Hend in Hres; by apply validate_available in Hres].
      destruct Hend as [-> _].
      split_and!; [apply Hbefore; lia | apply Hbefore; lia | exact Hup].
    + intros (H0 & H1 & H2).
      assert (k = 2)%nat as ->.
      { destruct k as [|[|[|k]]]; [| | done | lia];
          rewrite ?H0, ?H1 in Hend; by destruct Hend. }
      rewrite H2 in Hend. by destruct Hend.
  - intros Hres.
    destruct (upstream k) eqn:Hup;
      [|rewrite Hend in Hres; by apply validate_available in Hres].
    by destruct Hend.
  - exact Htrace.
  - intros i Hi Hin%Hcalled Hup. apply Hcalled.
    destruct (decide (i = k)) as [->|]; [|lia].
    rewrite Hup in Hend. lia.
  - intros i job_title Hin Hup.
    pose proof (Hlast _ _ Hin Hup) as ->.
    rewrite Hup in Hend. split_and!; [done | | exact Hend].
    intros Hnext%Hcalled. lia.
  - destruct (upstream k) as [|[title|]]; [by destruct Hend | exact Hend..].
Qed.

End RetryPolicy.

(** * More properties of the components *)

(** ** FileUpload *)

Section FileUploadMore.
Import FileUpload.

(** X1: an event without a file changes nothing: a cancelled file dialog keeps
    the earlier selection and the earlier error; a drop without a file only
    ends the drag highlight. *)
Theorem upload_without_file (type : Slot) (net : Network) (st : State) :
  run (handleFileChange [] type) net st = mkOutcome st [] (inr tt)
  ∧ run (handleDrop [] type) net st = mkOutcome (setDragActive None st) [] (inr tt)
  ∧ resumeFile (setDragActive None st) = resumeFile st
  ∧ jobFile (setDragActive None st) = jobFile st
  ∧ error (setDragActive None st) = error st.
Proof. repeat split. Qed.

(** X2: a PDF as [files[0]] replaces what the slot held, whatever it held,
    leaves the other slot and the loading flag as they were, and clears the
    error; a drop also ends the drag highlight, a selection leaves it. *)
Theorem upload_accepts_pdf (file : File) (files : list File) (type : Slot)
    (net : Network) (st : State) :
  file_type file = "application/pdf" →
  let selected := run (handleFileChange (file :: files) type) net st in
  let dropped := run (handleDrop (file :: files) type) net st in
  slot type (state selected) = Some file
  ∧ slot (other type) (state selected) = slot (other type) st
  ∧ error (state selected) = None
  ∧ loading (state selected) = loading st
  ∧ dragActive (state selected) = dragActive st
  ∧ trace selected = []
  ∧ slot type (state dropped) = Some file
  ∧ slot (other type) (state dropped) = slot (other type) st
  ∧ error (state dropped) = None
  ∧ loading (state dropped) = loading st
  ∧ dragActive (state dropped) = None
  ∧ trace dropped = [].
Proof.
  intros Hpdf selected dropped. subst selected dropped.
  unfold handleFileChange, handleDrop, acceptFiles. run_handler.
  rewrite Hpdf. destruct type; repeat split.
Qed.

Lemma upload_accepts_pdf_witness :
  let st := mkState (Some cv_pdf) None false (Some "Please upload PDF files only")
              (Some job) in
  file_type job_pdf = "application/pdf"
  ∧ state (run (handleDrop [job_pdf; cv_docx] job) server st)
    = mkState (Some cv_pdf) (Some job_pdf) false None None.
Proof.
  intros st.
  assert (file_type job_pdf = "application/pdf") as Hpdf by reflexivity.
  split; [exact Hpdf|].
  pose proof (upload_accepts_pdf job_pdf [cv_docx] job server st Hpdf)
    as (_ & _ & _ & _ & _ & _ & Hslot & Hother & Herror & Hloading & Hdrag & _).
  destruct (state (run (handleDrop [job_pdf; cv_docx] job) server st)) eqn:Hst.
  simpl in *. congruence.
Defined.

(** X3: with a file missing [handleAnalyze] asks for both files and does
    nothing else: no request, the loading flag and the files untouched. *)
Theorem analyze_needs_both_files (cl st : State) (net : Network) :
  resumeFile cl = None ∨ jobFile cl = None →
  run (handleAnalyze cl) net st
  = mkOutcome (setError (Some "Please upload both files") st) [] (inr tt).
Proof.
  intros Hmissing. unfold handleAnalyze.
  destruct (resumeFile cl), (jobFile cl); try reflexivity.
  destruct Hmissing; discriminate.
Qed.

Lemma analyze_needs_both_files_witness :
  let st := setResumeFile (Some cv_pdf) init in
  (resumeFile st = None ∨ jobFile st = None)
  ∧ run (handleAnalyze st) server st
    = mkOutcome (setError (Some "Please upload both files") st) [] (inr tt).
Proof.
  intros st.
  assert (resumeFile st = None ∨ jobFile st = None) as Hmissing
    by (right; reflexivity).
  split; [exact Hmissing|].
  exact (analyze_needs_both_files st st server Hmissing).
Defined.

(** X4: a good answer to the analysis: one request, the parsed body and the two
    files handed to [onAnalysisComplete], the error cleared, the loading flag
    down again, the files kept.  On the page [Home] then shows the results
    for that body and these files, and keeps the generated paths it had. *)
Theorem analyze_success (cl st : State) (net : Network) (rf jf : File)
    (r : Response) (b : Body) (h : Home.State) :
  resumeFile cl = Some rf → jobFile cl = Some jf →
  net (analyzeRequest rf jf) = Resolved r → ok r = true → json r = inr b →
  let o := run (handleAnalyze cl) net st in
  trace o = [Fetch (analyzeRequest rf jf); AnalysisComplete b rf jf]
  ∧ error (state o) = None
  ∧ loading (state o) = false
  ∧ resumeFile (state o) = resumeFile st
  ∧ jobFile (state o) = jobFile st
  ∧ foldl App.deliver h (trace o)
    = Home.mkState Home.results (Some b)
        (Home.mkUploadedFiles (Some rf) (Some jf)) (Home.generatedDocs h).
Proof.
  intros Hrf Hjf Hnet Hok Hjson o. subst o. unfold handleAnalyze.
  rewrite Hrf, Hjf. run_handler. rewrite Hnet. run_handler.
  rewrite Hok. run_handler. rewrite Hjson. run_handler.
  repeat split.
Qed.

Lemma analyze_success_witness :
  let st := mkState (Some cv_pdf) (Some job_pdf) false None None in
  let o := run (handleAnalyze st) server st in
  (resumeFile st = Some cv_pdf ∧ jobFile st = Some job_pdf
   ∧ ∃ r b, server (analyzeRequest cv_pdf job_pdf) = Resolved r
            ∧ ok r = true ∧ json r = inr b)
  ∧ length (trace o) = 2%nat
  ∧ Home.step (foldl App.deliver Home.init (trace o)) = Home.results.
Proof.
  intros st o.
  destruct (server (analyzeRequest cv_pdf job_pdf)) as [r|err] eqn:Hnet;
    [|discriminate].
  destruct (json r) as [msg|b] eqn:Hjson;
    [injection Hnet as <-; discriminate|].
  assert (ok r = true) as Hok by (injection Hnet as <-; reflexivity).
  split; [split_and!; [reflexivity | reflexivity | by exists r, b]|].
  pose proof (analyze_success st st server cv_pdf job_pdf r b Home.init
                eq_refl eq_refl Hnet Hok Hjson) as (Htrace & _ & _ & _ & _ & Hhome).
  subst o. split.
  - by rewrite Htrace.
  - by rewrite Hhome.
Defined.

(** X5: an answer with a good status whose body is not JSON counts as a
    failure: [handleAnalyze] shows the parser's message and does not call
    [onAnalysisComplete]; [handleSendEmail] shows it too and reports no
    success, although the server accepted the request. *)
Theorem ok_without_json (net : Network) (r : Response) (msg : string) :
  ok r = true → json r = inl msg →
  (∀ cl st,
     let o := run (handleAnalyze cl) net st in
     answered_by o net r →
     error (state o) = Some msg ∧ no_success (trace o))
  ∧ (∀ p cl st,
       let o := run (EmailSender.handleSendEmail p cl) net st in
       answered_by o net r →
       EmailSender.error (state o) = Some msg
       ∧ EmailSender.success (state o) = None
       ∧ no_success (trace o)).
Proof.
  intros Hok Hjson. split.
  - intros cl st o (req & Hin & Hnet). subst o. revert Hin.
    unfold handleAnalyze.
    destruct (resumeFile cl) as [rf|], (jobFile cl) as [jf|];
      try (by intros ?%elem_of_nil).
    run_handler.
    destruct (net (analyzeRequest rf jf)) as [r'|err] eqn:Hnet'; run_handler.
    + destruct (ok r') eqn:Hok', (json r') eqn:Hjson'; run_handler;
        rewrite ?elem_of_cons, ?elem_of_nil; intros Hin;
        assert (req = analyzeRequest rf jf) as -> by (destruct_or?; by simplify_eq);
        assert (r' = r) as -> by congruence;
        try congruence.
      assert (s = msg) as -> by congruence.
      split; [reflexivity | by repeat constructor].
    + intros [= ->]%list_elem_of_singleton. congruence.
  - intros p cl st o (req & Hin & Hnet). subst o.
    destruct (handleSendEmail_trace p cl net st) as [Htr | (Htr & Te & Tr & Tc)];
      rewrite Htr in Hin; [by apply elem_of_nil in Hin|].
    apply list_elem_of_singleton in Hin. injection Hin as ->.
    unfold EmailSender.handleSendEmail. rewrite Te, Tr, Tc. run_handler.
    rewrite Hnet. run_handler. rewrite Hok. run_handler.
    rewrite Hjson. run_handler.
    split_and!; [reflexivity | reflexivity | by repeat constructor].
Qed.

Lemma ok_without_json_witness :
  let r := created "" in
  let net : Network := λ _, Resolved r in
  let p := EmailSender.mkProps (Some "jobs@initech.example") "Data Engineer" None None
             "generated/latest_resume.pdf" "generated/latest_cover_letter.pdf" in
  let o := run (EmailSender.handleSendEmail p (EmailSender.init p)) net
             (EmailSender.init p) in
  (ok r = true ∧ json r = inl "Unexpected token")
  ∧ EmailSender.error (state o) = Some "Unexpected token"
  ∧ EmailSender.success (state o) = None
  ∧ no_success (trace o).
Proof.
  intros r net p o.
  split; [by split|].
  apply (proj2 (ok_without_json net r "Unexpected token" eq_refl eq_refl)
           p (EmailSender.init p) (EmailSender.init p)).
  exists (EmailSender.sendRequest p (EmailSender.init p)).
  split; [apply list_elem_of_singleton|]; reflexivity.
Defined.

End FileUploadMore.

(** ** What every handler does around its request *)

Section AroundTheRequest.

(** Splits on every test a handler makes after its guards. *)
Ltac all_answers net :=
  run_handler;
  destruct (net _) as [r|err]; run_handler;
  [destruct (ok r), (json r); run_handler|].

(** X6: the [finally] clauses: once a handler has made its request, its busy
    flag is down again when it returns, whatever the network did. *)
Theorem busy_flag_comes_down (net : Network) :
  (∀ cl st req,
     let o := run (FileUpload.handleAnalyze cl) net st in
     Fetch req ∈ trace o → FileUpload.loading (state o) = false)
  ∧ (∀ p cl format st req,
       let o := run (DocumentGeneration.handleGenerateResume p cl format) net st in
       Fetch req ∈ trace o → DocumentGeneration.loadingResume (state o) = false)
  ∧ (∀ p cl format st req,
       let o := run (DocumentGeneration.handleGenerateCoverLetter p cl format) net st in
       Fetch req ∈ trace o → DocumentGeneration.loadingCover (state o) = false)
  ∧ (∀ p cl st req,
       let o := run (EmailSender.handleSendEmail p cl) net st in
       Fetch req ∈ trace o → EmailSender.sending (state o) = false).
Proof.
  split_and!.
  - intros cl st req o. subst o. unfold FileUpload.handleAnalyze.
    destruct (FileUpload.resumeFile cl), (FileUpload.jobFile cl);
      try (by intros ?%elem_of_nil).
    all_answers net; reflexivity.
  - intros p cl format st req o. subst o.
    unfold DocumentGeneration.handleGenerateResume.
    destruct (DocumentGeneration.resumeFile p), (DocumentGeneration.jobDescriptionFile p);
      try (by intros ?%elem_of_nil).
    destruct (DocumentGeneration.notifies p); all_answers net; reflexivity.
  - intros p cl format st req o. subst o.
    unfold DocumentGeneration.handleGenerateCoverLetter.
    destruct (DocumentGeneration.resumeFile p), (DocumentGeneration.jobDescriptionFile p);
      try (by intros ?%elem_of_nil).
    destruct (DocumentGeneration.notifies p); all_answers net; reflexivity.
  - intros p cl st req o. subst o. unfold EmailSender.handleSendEmail.
    destruct (truthy _), (truthy _), (truthy _); simpl;
      try (by intros ?%elem_of_nil).
    all_answers net; reflexivity.
Qed.

(** X7: the [catch] clauses: when the request itself fails (the server cannot
    be reached), the handler shows the message of the error, or 'An error
    occurred' when what was thrown is not an [Error]; it reports no success,
    calls nothing back and starts no download. *)
Theorem unreachable_server (net : Network) (err : thrown) :
  (∀ req, net req = Rejected err) →
  (∀ cl st req,
     let o := run (FileUpload.handleAnalyze cl) net st in
     Fetch req ∈ trace o →
     FileUpload.error (state o) = Some (message_of err)
     ∧ trace o = [Fetch req])
  ∧ (∀ p cl format st req,
       let o := run (DocumentGeneration.handleGenerateResume p cl format) net st in
       Fetch req ∈ trace o →
       DocumentGeneration.error (state o) = Some (message_of err)
       ∧ DocumentGeneration.success (state o) = None
       ∧ trace o = [Fetch req])
  ∧ (∀ p cl format st req,
       let o := run (DocumentGeneration.handleGenerateCoverLetter p cl format) net st in
       Fetch req ∈ trace o →
       DocumentGeneration.error (state o) = Some (message_of err)
       ∧ DocumentGeneration.success (state o) = None
       ∧ trace o = [Fetch req])
  ∧ (∀ p cl st req,
       let o := run (EmailSender.handleSendEmail p cl) net st in
       Fetch req ∈ trace o →
       EmailSender.error (state o) = Some (message_of err)
       ∧ EmailSender.success (state o) = None
       ∧ trace o = [Fetch req])
  ∧ message_of OtherValue = "An error occurred".
Proof.
  intros Hnet. split_and!; [| | | |reflexivity].
  - intros cl st req o. subst o. unfold FileUpload.handleAnalyze.
    destruct (FileUpload.resumeFile cl), (FileUpload.jobFile cl);
      try (by intros ?%elem_of_nil).
    run_handler. rewrite Hnet. run_handler.
    by intros [= ->]%list_elem_of_singleton.
  - intros p cl format st req o. subst o.
    unfold DocumentGeneration.handleGenerateResume.
    destruct (DocumentGeneration.resumeFile p), (DocumentGeneration.jobDescriptionFile p);
      try (by intros ?%elem_of_nil).
    run_handler. rewrite Hnet. run_handler.
    by intros [= ->]%list_elem_of_singleton.
  - intros p cl format st req o. subst o.
    unfold DocumentGeneration.handleGenerateCoverLetter.
    destruct (DocumentGeneration.resumeFile p), (DocumentGeneration.jobDescriptionFile p);
      try (by intros ?%elem_of_nil).
    run_handler. rewrite Hnet. run_handler.
    by intros [= ->]%list_elem_of_singleton.
  - intros p cl st req o. subst o. unfold EmailSender.handleSendEmail.
    destruct (truthy _), (truthy _), (truthy _); simpl;
      try (by intros ?%elem_of_nil).
    run_handler. rewrite Hnet. run_handler.
    by intros [= ->]%list_elem_of_singleton.
Qed.

Lemma unreachable_server_witness :
  let err := ErrorObj "Failed to fetch" in
  let p := DocumentGeneration.mkProps (Some cv_pdf) (Some job_pdf) true in
  let o := run (DocumentGeneration.handleGenerateResume p DocumentGeneration.init
                  DocumentGeneration.pdf) App.offline DocumentGeneration.init in
  (∀ req, App.offline req = Rejected err)
  ∧ DocumentGeneration.error (state o) = Some "Failed to fetch"
  ∧ DocumentGeneration.success (state o) = None.
Proof.
  intros err p o.
  assert (∀ req, App.offline req = Rejected err) as Hnet by reflexivity.
  split; [exact Hnet|].
  destruct (unreachable_server App.offline err Hnet) as (_ & Hresume & _).
  destruct (Hresume p DocumentGeneration.init DocumentGeneration.pdf
              DocumentGeneration.init
              (DocumentGeneration.generateRequest
                 "http://localhost:8000/api/generate-resume" cv_pdf job_pdf
                 DocumentGeneration.pdf))
    as (Herror & Hsuccess & _).
  { apply list_elem_of_singleton. reflexivity. }
  split; [exact Herror | exact Hsuccess].
Defined.

End AroundTheRequest.

(** ** DocumentGeneration *)

Section DocumentGenerationMore.
Import DocumentGeneration.

(** X8: without both files a generator only reports 'Missing required files':
    no request, no flag raised, no path touched. *)
Theorem generate_needs_both_files (p : Props) (cl st : State) (format : Format)
    (net : Network) :
  resumeFile p = None ∨ jobDescriptionFile p = None →
  run (handleGenerateResume p cl format) net st
  = mkOutcome (setError (Some "Missing required files") st) [] (inr tt)
  ∧ run (handleGenerateCoverLetter p cl format) net st
    = mkOutcome (setError (Some "Missing required files") st) [] (inr tt).
Proof.
  intros Hmissing. unfold handleGenerateResume, handleGenerateCoverLetter.
  destruct (resumeFile p), (jobDescriptionFile p); try (by split).
  destruct Hmissing; discriminate.
Qed.

Lemma generate_needs_both_files_witness :
  let p := mkProps (Some cv_pdf) None true in
  (resumeFile p = None ∨ jobDescriptionFile p = None)
  ∧ error (state (run (handleGenerateResume p init pdf) server init))
    = Some "Missing required files"
  ∧ trace (run (handleGenerateCoverLetter p init docx) server init) = [].
Proof.
  intros p.
  assert (resumeFile p = None ∨ jobDescriptionFile p = None) as Hmissing
    by (right; reflexivity).
  split; [exact Hmissing|].
  destruct (generate_needs_both_files p init init pdf server Hmissing) as [-> _].
  destruct (generate_needs_both_files p init init docx server Hmissing) as [_ ->].
  split; reflexivity.
Defined.

(** X9: a generator never touches the other document: [handleGenerateResume]
    leaves [coverPath] and [loadingCover] alone, and it changes [resumePath]
    only together with a download, to the path of the downloaded file; the
    same holds with the roles swapped.  So a failed generation keeps the paths
    of the documents generated before. *)
Theorem generate_touches_its_own_path (p : Props) (cl st : State)
    (format : Format) (net : Network) :
  (let o := run (handleGenerateResume p cl format) net st in
   coverPath (state o) = coverPath st
   ∧ loadingCover (state o) = loadingCover st
   ∧ (resumePath (state o) = resumePath st
      ∨ resumePath (state o) = backendPath (resumeFilename format)
        ∧ ∃ content, Download (resumeFilename format) content ∈ trace o))
  ∧ (let o := run (handleGenerateCoverLetter p cl format) net st in
     resumePath (state o) = resumePath st
     ∧ loadingResume (state o) = loadingResume st
     ∧ (coverPath (state o) = coverPath st
        ∨ coverPath (state o) = backendPath (coverLetterFilename format)
          ∧ ∃ content, Download (coverLetterFilename format) content ∈ trace o)).
Proof.
  split.
  - unfold handleGenerateResume.
    destruct (resumeFile p), (jobDescriptionFile p);
      try (split_and!; [done | done | by left]).
    run_handler. destruct (net _) as [r|err]; run_handler;
      [|split_and!; [done | done | by left]].
    destruct (ok r), (json r), (notifies p); run_handler;
      (split_and!; [done | done |]); try (by left);
      right; (split; [done | exists (blob r); set_solver]).
  - unfold handleGenerateCoverLetter.
    destruct (resumeFile p), (jobDescriptionFile p);
      try (split_and!; [done | done | by left]).
    run_handler. destruct (net _) as [r|err]; run_handler;
      [|split_and!; [done | done | by left]].
    destruct (ok r), (json r), (notifies p); run_handler;
      (split_and!; [done | done |]); try (by left);
      right; (split; [done | exists (blob r); set_solver]).
Qed.

(** X10: what a successful generation tells [Home]: its own new path together
    with the other path as the closure knew it.  [setGeneratedDocs] takes both
    as they come, so whatever [Home] held before is replaced, also a path
    that the closure had not seen yet. *)
Theorem generation_notifies_with_closure (k : ArtifactStore.Kind) (p : Props)
    (cl st : State) (format : Format) (net : Network) (rf jf : File)
    (r : Response) (h : Home.State) :
  resumeFile p = Some rf → jobDescriptionFile p = Some jf → notifies p = true →
  net (generateRequest (endpoint k) rf jf format) = Resolved r → ok r = true →
  let o := run (handleGenerate k p cl format) net st in
  Home.generatedDocs (foldl App.deliver h (trace o))
  = match k with
    | ArtifactStore.resume =>
        Home.mkGeneratedDocs (backendPath (resumeFilename format)) (coverPath cl)
    | ArtifactStore.cover_letter =>
        Home.mkGeneratedDocs (resumePath cl) (backendPath (coverLetterFilename format))
    end.
Proof.
  intros Hrf Hjf Hnotifies Hnet Hok o. subst o.
  destruct k; simpl in Hnet; simpl handleGenerate;
    [unfold handleGenerateResume | unfold handleGenerateCoverLetter];
    rewrite Hrf, Hjf; run_handler; rewrite Hnet; run_handler; rewrite Hok;
    run_handler; rewrite Hnotifies; run_handler; reflexivity.
Qed.

Lemma generation_notifies_with_closure_witness :
  let p := mkProps (Some cv_pdf) (Some job_pdf) true in
  let h := Home.setGeneratedDocs
             (Home.mkGeneratedDocs "generated/latest_resume.pdf" "") Home.init in
  let st := setResumePath "generated/latest_resume.pdf" init in
  (resumeFile p = Some cv_pdf ∧ jobDescriptionFile p = Some job_pdf
   ∧ notifies p = true
   ∧ server (generateRequest (endpoint ArtifactStore.cover_letter) cv_pdf job_pdf docx)
     = Resolved (created "PK")
   ∧ ok (created "PK") = true)
  ∧ Home.generatedDocs
      (foldl App.deliver h
         (trace (run (handleGenerateCoverLetter p init docx) server st)))
    = Home.mkGeneratedDocs "" "generated/latest_cover_letter.docx".
Proof.
  intros p h st.
  split; [by split_and!|].
  exact (generation_notifies_with_closure ArtifactStore.cover_letter p init st docx
           server cv_pdf job_pdf (created "PK") h
           eq_refl eq_refl eq_refl eq_refl eq_refl).
Defined.

End DocumentGenerationMore.

(** ** EmailSender *)

Section EmailSenderMore.
Import EmailSender.

(** X11: without a recipient [handleSendEmail] asks for one and sends nothing,
    also when both documents are there; this test comes first, so that with
    nothing at all it is the recipient that is asked for. *)
Theorem send_needs_recipient (p : Props) (cl st : State) (net : Network) :
  recipientEmail cl = "" →
  run (handleSendEmail p cl) net st
  = mkOutcome (setError (Some "Please enter a recipient email address") st)
      [] (inr tt).
Proof. intros Hempty. unfold handleSendEmail. by rewrite Hempty. Qed.

Lemma send_needs_recipient_witness :
  let p := mkProps None "Data Engineer" None None
             "generated/latest_resume.pdf" "generated/latest_cover_letter.pdf" in
  recipientEmail (init p) = ""
  ∧ run (handleSendEmail p (init p)) server (init p)
    = mkOutcome (setError (Some "Please enter a recipient email address") (init p))
        [] (inr tt).
Proof.
  intros p.
  assert (recipientEmail (init p) = "") as Hempty by reflexivity.
  split; [exact Hempty|].
  exact (send_needs_recipient p (init p) (init p) server Hempty).
Defined.

(** X12: the tests of the handler and the [disabled] attribute of the button
    agree: when the button is enabled, a click puts exactly one request on
    the wire, a POST of JSON to [/api/send-email] carrying the recipient,
    subject and body as typed and the two paths of the props. *)
Theorem enabled_button_sends (p : Props) (st : State) (net : Network) :
  sendDisabled p st = false →
  let o := run (handleSendEmail p st) net st in
  requests (trace o) = [sendRequest p st]
  ∧ url (sendRequest p st) = "http://localhost:8000/api/send-email"
  ∧ payload (sendRequest p st)
    = JsonText [("recipient_email", recipientEmail st);
                ("subject", subject st);
                ("body", body st);
                ("resume_path", resumePath p);
                ("cover_letter_path", coverLetterPath p)]
  ∧ recipientEmail st ≠ "" ∧ resumePath p ≠ "" ∧ coverLetterPath p ≠ "".
Proof.
  intros Henabled o. subst o. unfold sendDisabled in Henabled.
  repeat (apply orb_false_elim in Henabled as [Henabled ?]).
  destruct (truthy (recipientEmail st)) eqn:Te; [|discriminate].
  destruct (truthy (resumePath p)) eqn:Tr; [|discriminate].
  destruct (truthy (coverLetterPath p)) eqn:Tc; [|discriminate].
  destruct (handleSendEmail_trace p st net st) as [Htr | (Htr & _)].
  - exfalso. revert Htr. unfold handleSendEmail. rewrite Te, Tr, Tc.
    run_handler. destruct (net _) as [r|err]; run_handler; [|done].
    destruct (ok r), (json r); by run_handler.
  - rewrite Htr. split_and!; try reflexivity; by apply truthy_true.
Qed.

Lemma enabled_button_sends_witness :
  let p := mkProps (Some "jobs@initech.example") "Data Engineer" None None
             "generated/latest_resume.pdf" "generated/latest_cover_letter.pdf" in
  sendDisabled p (init p) = false
  ∧ requests (trace (run (handleSendEmail p (init p)) server (init p)))
    = [sendRequest p (init p)].
Proof.
  intros p.
  assert (sendDisabled p (init p) = false) as Henabled by reflexivity.
  split; [exact Henabled|].
  exact (proj1 (enabled_button_sends p (init p) server Henabled)).
Defined.

(** X13: a good answer to the send: the message of the body is shown as the
    success, or 'Email sent successfully!' when the body has none; the error
    is cleared and the form stays as it was, recipient, subject and body, so
    that a second click sends the same email again. *)
Theorem send_success (p : Props) (st : State) (net : Network) (r : Response)
    (b : Body) :
  sendDisabled p st = false →
  net (sendRequest p st) = Resolved r → ok r = true → json r = inr b →
  let o := run (handleSendEmail p st) net st in
  state o
  = setSuccess (Some (or_default (message b) "Email sent successfully!"))
      (setError None st)
  ∧ sendDisabled p (state o) = false
  ∧ trace (run (handleSendEmail p (state o)) net (state o)) = trace o.
Proof.
  intros Henabled Hnet Hok Hjson o.
  assert (state o
          = setSuccess (Some (or_default (message b) "Email sent successfully!"))
              (setError None st)) as Hstate.
  { subst o. unfold sendDisabled in Henabled.
    repeat (apply orb_false_elim in Henabled as [Henabled ?]).
    destruct (truthy (recipientEmail st)) eqn:Te; [|discriminate].
    destruct (truthy (resumePath p)) eqn:Tr; [|discriminate].
    destruct (truthy (coverLetterPath p)) eqn:Tc; [|discriminate].
    unfold handleSendEmail. rewrite Te, Tr, Tc. run_handler.
    rewrite Hnet. run_handler. rewrite Hok. run_handler.
    rewrite Hjson. run_handler.
    destruct st as [re su bo se sc er]. simpl in *. by subst se. }
  split; [exact Hstate|]. split.
  - rewrite Hstate. exact Henabled.
  - subst o. rewrite Hstate. unfold handleSendEmail. simpl.
    unfold sendDisabled in Henabled.
    repeat (apply orb_false_elim in Henabled as [Henabled ?]).
    destruct (truthy (recipientEmail st)) eqn:Te; [|discriminate].
    destruct (truthy (resumePath p)) eqn:Tr; [|discriminate].
    destruct (truthy (coverLetterPath p)) eqn:Tc; [|discriminate].
    simpl. run_handler.
    change (sendRequest p (setSuccess _ (setError None st)))
      with (sendRequest p st).
    rewrite Hnet. run_handler. rewrite Hok. run_handler.
    rewrite Hjson. by run_handler.
Qed.

Lemma send_success_witness :
  let p := mkProps (Some "jobs@initech.example") "Data Engineer" None None
             "generated/latest_resume.pdf" "generated/latest_cover_letter.pdf" in
  let b := mkBody None (Some "Email sent") None None None None in
  let r := mkResponse true (inr b) "" in
  (sendDisabled p (init p) = false
   ∧ server (sendRequest p (init p)) = Resolved r ∧ ok r = true ∧ json r = inr b)
  ∧ success (state (run (handleSendEmail p (init p)) server (init p)))
    = Some "Email sent".
Proof.
  intros p b r.
  split; [by split_and!|].
  destruct (send_success p (init p) server r b eq_refl eq_refl eq_refl eq_refl)
    as [-> _].
  reflexivity.
Defined.

(** X14: the hint 'No email found in job description' is shown exactly when the
    recipient field starts empty; and on the page that is exactly when the
    analysis has no contact email, or an empty one. *)
Theorem hint_when_no_recipient (p : Props) (h : Home.State) :
  showsNoEmailHint p = negb (truthy (recipientEmail (init p)))
  ∧ showsNoEmailHint (Home.emailSenderProps h)
    = negb (truthy_opt (Home.job_field h contact_email)).
Proof.
  split.
  - unfold showsNoEmailHint. simpl.
    destruct (contactEmail p) as [[|c s]|]; reflexivity.
  - unfold showsNoEmailHint. simpl.
    destruct (Home.job_field h contact_email) as [[|c s]|]; reflexivity.
Qed.

End EmailSenderMore.

(** ** Home and the page *)

Section HomeMore.
Import Home.

(** X15: a new analysis leaves [generatedDocs] alone, as the reset before it
    does: right after the second analysis [EmailSender] is shown whenever a
    document of the first one had been generated, with the old paths as its
    attachments. *)
Theorem new_analysis_keeps_documents (h : State) (data : Body) (rf jf : File) :
  let h' := handleAnalysisComplete data rf jf (handleReset h) in
  step h' = results
  ∧ analysisData h' = Some data
  ∧ uploadedFiles h' = mkUploadedFiles (Some rf) (Some jf)
  ∧ generatedDocs h' = generatedDocs h
  ∧ showsEmailSender h'
    = truthy (resumePath (generatedDocs h)) || truthy (coverLetterPath (generatedDocs h))
  ∧ EmailSender.resumePath (emailSenderProps h') = resumePath (generatedDocs h)
  ∧ EmailSender.coverLetterPath (emailSenderProps h') = coverLetterPath (generatedDocs h).
Proof. repeat split. Qed.

(** X16: [Home] turns empty strings into null before it passes them down, and a
    missing analysis, or a missing part of it, into null as well (the job
    title into the empty string). *)
Theorem home_passes_no_empty_string (h : State) :
  EmailSender.contactEmail (emailSenderProps h) ≠ Some ""
  ∧ EmailSender.companyName (emailSenderProps h) ≠ Some ""
  ∧ EmailSender.candidateName (emailSenderProps h) ≠ Some ""
  ∧ ((analysisData h = None ∨ ∃ data, analysisData h = Some data ∧ job_analysis data = None) →
     EmailSender.contactEmail (emailSenderProps h) = None
     ∧ EmailSender.jobTitle (emailSenderProps h) = ""
     ∧ EmailSender.companyName (emailSenderProps h) = None)
  ∧ ((analysisData h = None ∨ ∃ data, analysisData h = Some data ∧ resume_analysis data = None) →
     EmailSender.candidateName (emailSenderProps h) = None).
Proof.
  split_and!; try apply or_null_nonempty.
  - intros [Hnone | (data & Hdata & Hjob)]; simpl; unfold job_field;
      [rewrite Hnone | rewrite Hdata, Hjob]; repeat split.
  - intros [Hnone | (data & Hdata & Hresume)]; simpl; unfold resume_field;
      [rewrite Hnone | rewrite Hdata, Hresume]; reflexivity.
Qed.

(** *** The analysis, over a whole session *)

Lemma deliver_analysis tr : ∀ h,
  analysis_invariant h → analysis_invariant (foldl App.deliver h tr).
Proof.
  induction tr as [|e tr IH]; intros h Hh; [done|].
  simpl. apply IH. destruct e as [req|name content|data rf jf|r c]; simpl; try done.
  right. simpl. eauto.
Qed.

Lemma reset_analysis h : analysis_invariant (handleReset h).
Proof. by left. Qed.

(** Where the state of [Home] comes from after a step. *)
Lemma step_home a act :
  App.home (App.step a act) = App.home a
  ∨ App.home (App.step a act) = handleReset (App.home a)
  ∨ ∃ tr, App.home (App.step a act) = foldl App.deliver (App.home a) tr.
Proof.
  destruct act; simpl;
    unfold App.onFileUpload, App.onDocumentGeneration, App.onEmailSender;
    repeat match goal with
           | |- context [if ?b then _ else _] => destruct b
           | |- context [match App.emailSender a with _ => _ end] =>
               destruct (App.emailSender a)
           end;
    simpl; eauto.
Qed.

(** X17: in every session [Home] is in one of two states: uploading, with no
    analysis and no files kept, or showing results, with an analysis and both
    files.  So [DocumentGeneration], which is shown with the results only,
    always gets both files. *)
Theorem page_has_files_with_results (acts : list App.Action) :
  let h := App.home (App.exec acts) in
  analysis_invariant h
  ∧ (showsDocumentGeneration h = true →
     is_Some (DocumentGeneration.resumeFile (documentGenerationProps h))
     ∧ is_Some (DocumentGeneration.jobDescriptionFile (documentGenerationProps h))).
Proof.
  intros h. assert (analysis_invariant h) as Hh.
  { subst h. unfold App.exec.
    assert (analysis_invariant (App.home App.init)) as Hinit by (by left).
    revert Hinit. generalize App.init.
    induction acts as [|act acts IH]; intros a Ha; [done|].
    simpl. apply IH.
    destruct (step_home a act) as [-> | [-> | [tr ->]]];
      [done | apply reset_analysis | by apply deliver_analysis]. }
  split; [exact Hh|].
  unfold showsDocumentGeneration. intros Hshown%bool_decide_eq_true.
  destruct Hh as [(Hstep & _) | (_ & _ & Hrf & Hjf)]; [congruence | done].
Qed.

End HomeMore.

(** ** Only PDF files leave the page *)

Section OnlyPdf.

Lemma requests_app tr tr' :
  requests (tr ++ tr') = (requests tr ++ requests tr')%list.
Proof. unfold requests. apply omap_app. Qed.

Lemma requests_pdf tr :
  Forall pdf_event tr → Forall (λ req, Forall is_pdf (uploads req)) (requests tr).
Proof.
  induction 1 as [|e tr He _ IH]; [constructor|].
  destruct e; simpl; [constructor|..]; done.
Qed.

Lemma acceptFiles_keeps_pdf files type net st :
  pdf_or_none (FileUpload.resumeFile st) → pdf_or_none (FileUpload.jobFile st) →
  let o := run (FileUpload.acceptFiles files type) net st in
  pdf_or_none (FileUpload.resumeFile (state o))
  ∧ pdf_or_none (FileUpload.jobFile (state o))
  ∧ trace o = [].
Proof.
  intros Hr Hj. unfold FileUpload.acceptFiles.
  destruct files as [|file files]; [done|].
  destruct (String.eqb_spec (file_type file) "application/pdf");
    [|done].
  destruct type; done.
Qed.

Lemma handleDrop_keeps_pdf files type net st :
  pdf_or_none (FileUpload.resumeFile st) → pdf_or_none (FileUpload.jobFile st) →
  let o := run (FileUpload.handleDrop files type) net st in
  pdf_or_none (FileUpload.resumeFile (state o))
  ∧ pdf_or_none (FileUpload.jobFile (state o))
  ∧ trace o = [].
Proof.
  intros Hr Hj o. subst o. unfold FileUpload.handleDrop. run_handler.
  pose proof (acceptFiles_keeps_pdf files type net
                (FileUpload.setDragActive None st) Hr Hj) as Hnext.
  unfold run in Hnext.
  destruct (FileUpload.acceptFiles files type net _) as [st' tr res].
  simpl in Hnext. destruct Hnext as (? & ? & ->). by destruct res.
Qed.

Lemma handleDrag_keeps_pdf etype type net st :
  let o := run (FileUpload.handleDrag etype type) net st in
  FileUpload.resumeFile (state o) = FileUpload.resumeFile st
  ∧ FileUpload.jobFile (state o) = FileUpload.jobFile st
  ∧ trace o = [].
Proof.
  unfold FileUpload.handleDrag.
  destruct (_ || _); [done|]. by destruct (String.eqb _ _).
Qed.

Lemma handleAnalyze_keeps_pdf cl net st :
  pdf_or_none (FileUpload.resumeFile cl) → pdf_or_none (FileUpload.jobFile cl) →
  let o := run (FileUpload.handleAnalyze cl) net st in
  FileUpload.resumeFile (state o) = FileUpload.resumeFile st
  ∧ FileUpload.jobFile (state o) = FileUpload.jobFile st
  ∧ Forall pdf_event (trace o).
Proof.
  intros Hr Hj o. subst o. unfold FileUpload.handleAnalyze.
  destruct (FileUpload.resumeFile cl) as [rf|], (FileUpload.jobFile cl) as [jf|];
    try (by split_and!).
  assert (pdf_event (Fetch (FileUpload.analyzeRequest rf jf)))
    by (repeat constructor; done).
  run_handler. destruct (net _) as [r|err]; run_handler;
    [|by split_and!; repeat constructor].
  destruct (ok r), (json r); run_handler; by split_and!; repeat constructor.
Qed.

Lemma handleGenerate_sends_pdf p cl format net st :
  pdf_or_none (DocumentGeneration.resumeFile p) →
  pdf_or_none (DocumentGeneration.jobDescriptionFile p) →
  Forall pdf_event
    (trace (run (DocumentGeneration.handleGenerateResume p cl format) net st))
  ∧ Forall pdf_event
      (trace (run (DocumentGeneration.handleGenerateCoverLetter p cl format) net st)).
Proof.
  intros Hr Hj.
  unfold DocumentGeneration.handleGenerateResume,
    DocumentGeneration.handleGenerateCoverLetter.
  destruct (DocumentGeneration.resumeFile p) as [rf|],
    (DocumentGeneration.jobDescriptionFile p) as [jf|];
    try (split; constructor).
  assert (∀ endpoint,
            pdf_event (Fetch (DocumentGeneration.generateRequest endpoint rf jf format)))
    as Hreq by (intros; repeat constructor; done).
  split; run_handler; (destruct (net _) as [r|err]; run_handler;
    [destruct (ok r), (json r), (DocumentGeneration.notifies p); run_handler|]);
    repeat (apply List.Forall_cons; [first [apply Hreq | exact I]|]);
    apply List.Forall_nil.
Qed.

Lemma handleSendEmail_sends_no_file p cl net st :
  Forall pdf_event (trace (run (EmailSender.handleSendEmail p cl) net st)).
Proof.
  destruct (handleSendEmail_trace p cl net st) as [-> | (-> & _)];
    repeat constructor.
Qed.

Lemma deliver_pdf tr : ∀ h,
  pdf_or_none (Home.resume (Home.uploadedFiles h)) →
  pdf_or_none (Home.jobDescription (Home.uploadedFiles h)) →
  Forall pdf_event tr →
  pdf_or_none (Home.resume (Home.uploadedFiles (foldl App.deliver h tr)))
  ∧ pdf_or_none (Home.jobDescription (Home.uploadedFiles (foldl App.deliver h tr))).
Proof.
  induction tr as [|e tr IH]; intros h Hr Hj Htr; [done|].
  apply Forall_cons in Htr as [He Htr]. simpl.
  destruct e; simpl; try (by apply IH).
  destruct He. by apply IH.
Qed.

Lemma rerender_pdf a h fu dg dgs es tr :
  pdf_invariant a →
  pdf_or_none (FileUpload.resumeFile fu) → pdf_or_none (FileUpload.jobFile fu) →
  pdf_or_none (Home.resume (Home.uploadedFiles h)) →
  pdf_or_none (Home.jobDescription (Home.uploadedFiles h)) →
  Forall pdf_event tr →
  pdf_invariant (App.rerender a h fu dg dgs es tr).
Proof.
  intros (_ & _ & _ & _ & Hlog) Hr Hj Hhr Hhj Htr.
  split; [|split; [|split; [|split]]]; simpl; try done.
  - by destruct (_ && _).
  - by destruct (_ && _).
  - rewrite requests_app. apply Forall_app. split; [done | by apply requests_pdf].
Qed.

Lemma step_pdf a act : pdf_invariant a → pdf_invariant (App.step a act).
Proof.
  intros Ha. pose proof Ha as (Hr & Hj & Hhr & Hhj & Hlog).
  destruct act; simpl;
    unfold App.onFileUpload, App.onDocumentGeneration, App.onEmailSender.
  - destruct (Home.showsFileUpload _); [|done].
    destruct (handleDrag_keeps_pdf etype type App.offline (App.fileUpload a))
      as (Hr' & Hj' & Htr). rewrite Htr.
    apply rerender_pdf; try done; by rewrite ?Hr', ?Hj'.
  - destruct (Home.showsFileUpload _); [|done].
    destruct (handleDrop_keeps_pdf files type App.offline (App.fileUpload a) Hr Hj)
      as (Hr' & Hj' & Htr). rewrite Htr.
    by apply rerender_pdf.
  - destruct (Home.showsFileUpload _); [|done].
    destruct (acceptFiles_keeps_pdf files type App.offline (App.fileUpload a) Hr Hj)
      as (Hr' & Hj' & Htr). unfold FileUpload.handleFileChange. rewrite Htr.
    by apply rerender_pdf.
  - destruct (_ || _); [done|]. destruct (Home.showsFileUpload _); [|done].
    destruct (handleAnalyze_keeps_pdf (App.fileUpload a) net (App.fileUpload a) Hr Hj)
      as (Hr' & Hj' & Htr).
    apply rerender_pdf; try done; rewrite ?Hr', ?Hj'; try done;
      by apply deliver_pdf.
  - destruct (DocumentGeneration.loadingResume _); [done|].
    destruct (Home.showsDocumentGeneration _); [|done].
    destruct (handleGenerate_sends_pdf (Home.documentGenerationProps (App.home a))
                (App.closure a age) format net (App.documentGeneration a) Hhr Hhj)
      as [Htr _].
    apply rerender_pdf; try done; by apply deliver_pdf.
  - destruct (DocumentGeneration.loadingCover _); [done|].
    destruct (Home.showsDocumentGeneration _); [|done].
    destruct (handleGenerate_sends_pdf (Home.documentGenerationProps (App.home a))
                (App.closure a age) format net (App.documentGeneration a) Hhr Hhj)
      as [_ Htr].
    apply rerender_pdf; try done; by apply deliver_pdf.
  - case_bool_decide; [|done]. by apply rerender_pdf.
  - destruct (App.emailSender a); [|done]. by apply rerender_pdf.
  - destruct (App.emailSender a); [|done]. by apply rerender_pdf.
  - destruct (App.emailSender a); [|done]. by apply rerender_pdf.
  - destruct (App.emailSender a) as [es|]; [|done].
    destruct (EmailSender.sendDisabled _ _); [done|].
    pose proof (handleSendEmail_sends_no_file
                  (Home.emailSenderProps (App.home a)) es net es) as Htr.
    apply rerender_pdf; try done; by apply deliver_pdf.
Qed.

Lemma exec_pdf acts : pdf_invariant (App.exec acts).
Proof.
  unfold App.exec.
  assert (pdf_invariant App.init) as Hinit by (split_and!; done || constructor).
  revert Hinit. generalize App.init.
  induction acts as [|act acts IH]; intros a Ha; [done|].
  simpl. apply IH. by apply step_pdf.
Qed.

(** X18: in every session, every file in a request of the page (to the
    analysis, to a generator) has the MIME type [application/pdf]: the type
    test of the upload handlers is the only way into the two slots, and the
    slots are the only source of the files sent. *)
Theorem only_pdfs_are_sent (acts : list App.Action) (req : Request) (f : File) :
  Fetch req ∈ App.log (App.exec acts) → f ∈ uploads req →
  file_type f = "application/pdf".
Proof.
  intros Hreq Hf.
  destruct (exec_pdf acts) as (_ & _ & _ & _ & Hlog).
  assert (req ∈ requests (App.log (App.exec acts))) as Hin.
  { unfold requests. apply list_elem_of_omap. by exists (Fetch req). }
  pose proof (proj1 (Forall_forall _ _) Hlog req Hin) as Hfiles.
  exact (proj1 (Forall_forall _ _) Hfiles f Hf).
Qed.

Lemma only_pdfs_are_sent_witness :
  let req := DocumentGeneration.generateRequest
               "http://localhost:8000/api/generate-resume" cv_pdf job_pdf
               DocumentGeneration.pdf in
  (Fetch req ∈ App.log (App.exec session) ∧ job_pdf ∈ uploads req)
  ∧ file_type job_pdf = "application/pdf".
Proof.
  intros req.
  assert (Fetch req ∈ App.log (App.exec session)) as Hreq.
  { vm_compute. apply elem_of_cons. right. apply elem_of_cons. right.
    apply elem_of_cons. left. reflexivity. }
  assert (job_pdf ∈ uploads req) as Hf.
  { vm_compute. apply elem_of_cons. right. apply elem_of_cons. left. reflexivity. }
  split; [by split|].
  exact (only_pdfs_are_sent session req job_pdf Hreq Hf).
Defined.

End OnlyPdf.

(** ** What is attached was downloaded *)

Section Downloaded.
Import DocumentGeneration.

Lemma resume_downloaded_mono tr tr' path :
  resume_downloaded tr path → resume_downloaded (tr ++ tr') path.
Proof.
  intros [-> | (f & content & -> & Hin)]; [by left|].
  right. exists f, content. split; [done|]. apply elem_of_app. by left.
Qed.

Lemma cover_downloaded_mono tr tr' path :
  cover_downloaded tr path → cover_downloaded (tr ++ tr') path.
Proof.
  intros [-> | (f & content & -> & Hin)]; [by left|].
  right. exists f, content. split; [done|]. apply elem_of_app. by left.
Qed.

Lemma docgen_downloaded_mono tr tr' st :
  docgen_downloaded tr st → docgen_downloaded (tr ++ tr') st.
Proof.
  intros [Hr Hc].
  split; [by apply resume_downloaded_mono | by apply cover_downloaded_mono].
Qed.

Lemma body_downloaded_mono tr tr' body :
  body_downloaded tr body → body_downloaded (tr ++ tr') body.
Proof.
  intros (f & g & c & c' & Hf & Hg & Hin & Hin').
  exists f, g, c, c'. split_and!; [done | done | |]; apply elem_of_app; by left.
Qed.

(** A trace without a notification and without a send-email request. *)
Lemma quiet_downloaded T tr :
  Forall (λ e, match e with
               | DocumentsGenerated _ _ => False
               | _ => App.sendEmailBody e = None
               end) tr →
  Forall (event_downloaded T) tr.
Proof.
  intros Hquiet. eapply Forall_impl; [exact Hquiet|].
  intros [req|name content|data rf jf|r c] He;
    [| intros body [=] | intros body [=] | done].
  change (App.sendEmailBody (Fetch req) = None) in He.
  intros body Hbody. congruence.
Qed.

Lemma fileUpload_quiet (m : M FileUpload.State unit) net st T :
  (∃ etype type, m = FileUpload.handleDrag etype type)
  ∨ (∃ files type, m = FileUpload.handleDrop files type)
  ∨ (∃ files type, m = FileUpload.handleFileChange files type)
  ∨ (∃ cl, m = FileUpload.handleAnalyze cl) →
  Forall (event_downloaded T) (trace (run m net st)).
Proof.
  intros [(etype & type & ->) | [(files & type & ->) |
          [(files & type & ->) | (cl & ->)]]]; apply quiet_downloaded.
  - destruct (handleDrag_keeps_pdf etype type net st) as (_ & _ & ->). constructor.
  - unfold FileUpload.handleDrop. run_handler.
    pose proof (acceptFiles_trace files type net
                  (FileUpload.setDragActive None st)) as Htr.
    unfold run in Htr.
    destruct (FileUpload.acceptFiles files type net _) as [st' tr res].
    simpl in Htr. subst tr. destruct res; constructor.
  - unfold FileUpload.handleFileChange. rewrite acceptFiles_trace. constructor.
  - unfold FileUpload.handleAnalyze.
    destruct (FileUpload.resumeFile cl), (FileUpload.jobFile cl); try constructor.
    run_handler. destruct (net _) as [r|err]; run_handler;
      [destruct (ok r), (json r); run_handler|]; repeat constructor.
Qed.

Lemma handleGenerateResume_downloaded p cl format net st T :
  docgen_downloaded T cl → docgen_downloaded T st →
  let o := run (handleGenerateResume p cl format) net st in
  docgen_downloaded (T ++ trace o) (state o)
  ∧ Forall (event_downloaded (T ++ trace o)) (trace o).
Proof.
  intros [_ Hcl] Hst o. subst o. unfold handleGenerateResume.
  pose proof (λ tr, docgen_downloaded_mono T tr st Hst) as Hkeep.
  pose proof (λ tr, cover_downloaded_mono T tr _ Hcl) as Hclosure.
  assert (∀ tr content,
            resume_downloaded
              (T ++ Fetch (generateRequest "http://localhost:8000/api/generate-resume"
                             (default cv_pdf (resumeFile p))
                             (default cv_pdf (jobDescriptionFile p)) format)
                 :: Download (resumeFilename format) content :: tr)
              (backendPath (resumeFilename format))) as Hnew.
  { intros tr content. right. exists format, content. split; [done|].
    apply elem_of_app. right. apply elem_of_cons. right. apply elem_of_cons. by left. }
  destruct (resumeFile p) as [rf|], (jobDescriptionFile p) as [jf|];
    try (split; [apply Hkeep | constructor]).
  simpl in Hnew. run_handler.
  destruct (net _) as [r|err]; run_handler.
  - destruct (ok r), (json r), (notifies p); run_handler;
      (split;
       [ first [ apply Hkeep | split; [apply Hnew | apply Hkeep] ]
       | repeat (apply List.Forall_cons;
                 [ first [ by intros body [=]
                         | split; [apply Hnew | apply Hclosure] ] |]);
         apply List.Forall_nil ]).
  - split; [apply Hkeep|]. repeat constructor. by intros body [=].
Qed.

Lemma handleGenerateCoverLetter_downloaded p cl format net st T :
  docgen_downloaded T cl → docgen_downloaded T st →
  let o := run (handleGenerateCoverLetter p cl format) net st in
  docgen_downloaded (T ++ trace o) (state o)
  ∧ Forall (event_downloaded (T ++ trace o)) (trace o).
Proof.
  intros [Hcl _] Hst o. subst o. unfold handleGenerateCoverLetter.
  pose proof (λ tr, docgen_downloaded_mono T tr st Hst) as Hkeep.
  pose proof (λ tr, resume_downloaded_mono T tr _ Hcl) as Hclosure.
  assert (∀ tr content,
            cover_downloaded
              (T ++ Fetch (generateRequest "http://localhost:8000/api/generate-cover-letter"
                             (default cv_pdf (resumeFile p))
                             (default cv_pdf (jobDescriptionFile p)) format)
                 :: Download (coverLetterFilename format) content :: tr)
              (backendPath (coverLetterFilename format))) as Hnew.
  { intros tr content. right. exists format, content. split; [done|].
    apply elem_of_app. right. apply elem_of_cons. right. apply elem_of_cons. by left. }
  destruct (resumeFile p) as [rf|], (jobDescriptionFile p) as [jf|];
    try (split; [apply Hkeep | constructor]).
  simpl in Hnew. run_handler.
  destruct (net _) as [r|err]; run_handler.
  - destruct (ok r), (json r), (notifies p); run_handler;
      (split;
       [ first [ apply Hkeep | split; [apply Hkeep | apply Hnew] ]
       | repeat (apply List.Forall_cons;
                 [ first [ by intros body [=]
                         | split; [apply Hclosure | apply Hnew] ] |]);
         apply List.Forall_nil ]).
  - split; [apply Hkeep|]. repeat constructor. by intros body [=].
Qed.

Lemma handleSendEmail_downloaded p cl net st T :
  resume_downloaded T (EmailSender.resumePath p) →
  cover_downloaded T (EmailSender.coverLetterPath p) →
  let tr := trace (run (EmailSender.handleSendEmail p cl) net st) in
  Forall (event_downloaded (T ++ tr)) tr.
Proof.
  intros Hr Hc tr. subst tr.
  destruct (handleSendEmail_trace p cl net st) as [-> | (-> & _ & Tr & Tc)];
    [constructor|].
  repeat constructor. intros body [= <-].
  apply body_downloaded_mono.
  destruct Hr as [Hr | (f & content & Hf & Hin)];
    [rewrite Hr in Tr; discriminate|].
  destruct Hc as [Hc | (g & content' & Hg & Hin')];
    [rewrite Hc in Tc; discriminate|].
  exists f, g, content, content'. rewrite <- Hf, <- Hg. by split_and!.
Qed.

Lemma deliver_downloaded T tr : ∀ h,
  resume_downloaded T (Home.resumePath (Home.generatedDocs h)) →
  cover_downloaded T (Home.coverLetterPath (Home.generatedDocs h)) →
  Forall (event_downloaded T) tr →
  resume_downloaded T (Home.resumePath (Home.generatedDocs (foldl App.deliver h tr)))
  ∧ cover_downloaded T
      (Home.coverLetterPath (Home.generatedDocs (foldl App.deliver h tr))).
Proof.
  induction tr as [|e tr IH]; intros h Hr Hc Htr; [done|].
  apply Forall_cons in Htr as [He Htr]. simpl.
  destruct e; simpl; try (by apply IH).
  destruct He. by apply IH.
Qed.

Lemma sent_downloaded T tr :
  Forall (event_downloaded T) tr →
  Forall (body_downloaded T) (omap App.sendEmailBody tr).
Proof.
  induction 1 as [|e tr He _ IH]; [constructor|]. simpl.
  destruct (App.sendEmailBody e) as [body|] eqn:Hbody; [|done].
  constructor; [|done]. destruct e; try discriminate. by apply He.
Qed.

Lemma rerender_downloaded a h fu dg dgs es tr :
  downloads_invariant a → sent_invariant a →
  resume_downloaded (App.log a ++ tr) (Home.resumePath (Home.generatedDocs h)) →
  cover_downloaded (App.log a ++ tr) (Home.coverLetterPath (Home.generatedDocs h)) →
  Forall (docgen_downloaded (App.log a ++ tr)) (dg :: dgs) →
  Forall (event_downloaded (App.log a ++ tr)) tr →
  downloads_invariant (App.rerender a h fu dg dgs es tr)
  ∧ sent_invariant (App.rerender a h fu dg dgs es tr).
Proof.
  intros _ Hsent Hr Hc Hdg Htr. split; [split_and!|]; simpl; try done.
  - destruct (_ && _); [done|]. repeat constructor; by left.
  - unfold sent_invariant, App.sendEmailBodies. simpl. rewrite omap_app.
    apply Forall_app. split.
    + eapply Forall_impl; [exact Hsent|]. intros body. apply body_downloaded_mono.
    + by apply sent_downloaded.
Qed.

Lemma keep_downloaded a tr :
  downloads_invariant a →
  resume_downloaded (App.log a ++ tr)
    (Home.resumePath (Home.generatedDocs (App.home a)))
  ∧ cover_downloaded (App.log a ++ tr)
      (Home.coverLetterPath (Home.generatedDocs (App.home a)))
  ∧ Forall (docgen_downloaded (App.log a ++ tr))
      (App.documentGeneration a :: App.renders a).
Proof.
  intros (Hr & Hc & Hdg). split_and!.
  - by apply resume_downloaded_mono.
  - by apply cover_downloaded_mono.
  - eapply Forall_impl; [exact Hdg|]. intros st. apply docgen_downloaded_mono.
Qed.

Lemma step_downloaded a act :
  downloads_invariant a ∧ sent_invariant a →
  downloads_invariant (App.step a act) ∧ sent_invariant (App.step a act).
Proof.
  intros [Ha Hsent].
  assert (∀ m net, (∃ etype type, m = FileUpload.handleDrag etype type)
                   ∨ (∃ files type, m = FileUpload.handleDrop files type)
                   ∨ (∃ files type, m = FileUpload.handleFileChange files type)
                   ∨ (∃ cl, m = FileUpload.handleAnalyze cl) →
            downloads_invariant (App.onFileUpload a m net)
            ∧ sent_invariant (App.onFileUpload a m net)) as Hupload.
  { intros m net Hm. unfold App.onFileUpload.
    destruct (Home.showsFileUpload _); [|done].
    set (tr := trace (run m net (App.fileUpload a))).
    destruct (keep_downloaded a tr Ha) as (Hr & Hc & Hdg).
    pose proof (fileUpload_quiet m net (App.fileUpload a) (App.log a ++ tr) Hm)
      as Htr.
    apply rerender_downloaded; try done; by apply deliver_downloaded. }
  assert (∀ v, downloads_invariant
                 (App.onEmailSender a (λ _, update v) App.offline)
               ∧ sent_invariant (App.onEmailSender a (λ _, update v) App.offline))
    as Htype.
  { intros v. unfold App.onEmailSender.
    destruct (App.emailSender a); [|done]. simpl.
    destruct (keep_downloaded a [] Ha) as (Hr & Hc & Hdg).
    apply rerender_downloaded; first [done | constructor]. }
  destruct act; simpl.
  - apply Hupload. left. eauto.
  - apply Hupload. right. left. eauto.
  - apply Hupload. right. right. left. eauto.
  - destruct (_ || _); [done|]. apply Hupload. right. right. right. eauto.
  - destruct (loadingResume _); [done|]. unfold App.onDocumentGeneration.
    destruct (Home.showsDocumentGeneration _); [|done].
    pose proof Ha as (_ & _ & Hdg).
    assert (docgen_downloaded (App.log a) (App.closure a age)) as Hcl.
    { unfold App.closure. destruct (_ !! age) as [cl|] eqn:Hage; simpl.
      - eapply Forall_lookup_1; eauto.
      - by apply Forall_cons in Hdg as [? _]. }
    pose proof Hdg as [Hcur _]%Forall_cons.
    destruct (handleGenerateResume_downloaded
                (Home.documentGenerationProps (App.home a)) (App.closure a age)
                format net (App.documentGeneration a) (App.log a) Hcl Hcur)
      as [Hst Htr].
    destruct (keep_downloaded a
                (trace (run (handleGenerateResume
                               (Home.documentGenerationProps (App.home a))
                               (App.closure a age) format)
                          net (App.documentGeneration a))) Ha)
      as (Hr & Hc & Hdg').
    apply rerender_downloaded; try done;
      [by apply deliver_downloaded | by apply deliver_downloaded | by constructor].
  - destruct (loadingCover _); [done|]. unfold App.onDocumentGeneration.
    destruct (Home.showsDocumentGeneration _); [|done].
    pose proof Ha as (_ & _ & Hdg).
    assert (docgen_downloaded (App.log a) (App.closure a age)) as Hcl.
    { unfold App.closure. destruct (_ !! age) as [cl|] eqn:Hage; simpl.
      - eapply Forall_lookup_1; eauto.
      - by apply Forall_cons in Hdg as [? _]. }
    pose proof Hdg as [Hcur _]%Forall_cons.
    destruct (handleGenerateCoverLetter_downloaded
                (Home.documentGenerationProps (App.home a)) (App.closure a age)
                format net (App.documentGeneration a) (App.log a) Hcl Hcur)
      as [Hst Htr].
    destruct (keep_downloaded a
                (trace (run (handleGenerateCoverLetter
                               (Home.documentGenerationProps (App.home a))
                               (App.closure a age) format)
                          net (App.documentGeneration a))) Ha)
      as (Hr & Hc & Hdg').
    apply rerender_downloaded; try done;
      [by apply deliver_downloaded | by apply deliver_downloaded | by constructor].
  - case_bool_decide; [|done].
    destruct (keep_downloaded a [] Ha) as (Hr & Hc & Hdg).
    apply rerender_downloaded; first [done | constructor].
  - apply Htype.
  - apply Htype.
  - apply Htype.
  - destruct (App.emailSender a) as [es|] eqn:Hes; [|done].
    destruct (EmailSender.sendDisabled _ _); [done|].
    unfold App.onEmailSender. rewrite Hes.
    pose proof Ha as (Hr0 & Hc0 & _).
    pose proof (handleSendEmail_downloaded (Home.emailSenderProps (App.home a))
                  es net es (App.log a) Hr0 Hc0) as Htr.
    destruct (keep_downloaded a
                (trace (run (EmailSender.handleSendEmail
                               (Home.emailSenderProps (App.home a)) es) net es)) Ha)
      as (Hr & Hc & Hdg).
    apply rerender_downloaded; try done; by apply deliver_downloaded.
Qed.

Lemma exec_downloaded acts :
  downloads_invariant (App.exec acts) ∧ sent_invariant (App.exec acts).
Proof.
  unfold App.exec.
  assert (downloads_invariant App.init ∧ sent_invariant App.init) as Hinit.
  { split; [split_and!|]; try (by left); repeat constructor; by left. }
  revert Hinit. generalize App.init.
  induction acts as [|act acts IH]; intros a Ha; [done|].
  simpl. apply IH. by apply step_downloaded.
Qed.

(** X19: in every session, the two paths of a send-email request name files
    that the page has downloaded before, each after a good answer of its
    generator: sending comes after both documents were generated at least
    once in the session. *)
Theorem attachments_were_downloaded (acts : list App.Action)
    (body : list (string * string)) :
  body ∈ App.sendEmailBodies (App.exec acts) →
  ∃ f g content content',
    App.field "resume_path" body = Some (backendPath (resumeFilename f))
    ∧ App.field "cover_letter_path" body = Some (backendPath (coverLetterFilename g))
    ∧ Download (resumeFilename f) content ∈ App.log (App.exec acts)
    ∧ Download (coverLetterFilename g) content' ∈ App.log (App.exec acts).
Proof.
  intros Hin. destruct (exec_downloaded acts) as [_ Hsent].
  exact (proj1 (Forall_forall _ _) Hsent body Hin).
Qed.

Lemma attachments_were_downloaded_witness :
  session_body ∈ App.sendEmailBodies (App.exec session)
  ∧ ∃ f g content content',
      App.field "resume_path" session_body = Some (backendPath (resumeFilename f))
      ∧ App.field "cover_letter_path" session_body
        = Some (backendPath (coverLetterFilename g))
      ∧ Download (resumeFilename f) content ∈ App.log (App.exec session)
      ∧ Download (coverLetterFilename g) content' ∈ App.log (App.exec session).
Proof.
  assert (session_body ∈ App.sendEmailBodies (App.exec session)) as Hsent.
  { rewrite session_sends. apply list_elem_of_singleton. reflexivity. }
  split; [exact Hsent|].
  exact (attachments_were_downloaded session session_body Hsent).
Defined.

End Downloaded.

(** ** Generating both documents *)

Section BothDocuments.
Import DocumentGeneration.

(** One successful generation of a resume on the page, started from the
    current render. *)
Lemma step_generate_resume a format net rf jf r :
  Home.step (App.home a) = Home.results →
  Home.uploadedFiles (App.home a) = Home.mkUploadedFiles (Some rf) (Some jf) →
  loadingResume (App.documentGeneration a) = false →
  net (generateRequest "http://localhost:8000/api/generate-resume" rf jf format)
  = Resolved r →
  ok r = true →
  let a' := App.step a (App.GenerateResume format 0 net) in
  App.home a'
  = Home.setGeneratedDocs
      (Home.mkGeneratedDocs (backendPath (resumeFilename format))
         (coverPath (App.documentGeneration a))) (App.home a)
  ∧ resumePath (App.documentGeneration a') = backendPath (resumeFilename format)
  ∧ coverPath (App.documentGeneration a') = coverPath (App.documentGeneration a)
  ∧ loadingResume (App.documentGeneration a') = false
  ∧ loadingCover (App.documentGeneration a') = loadingCover (App.documentGeneration a)
  ∧ is_Some (App.emailSender a').
Proof.
  intros Hstep Hfiles Hloading Hnet Hok a'. subst a'.
  unfold App.step. rewrite Hloading.
  unfold App.onDocumentGeneration, Home.showsDocumentGeneration.
  rewrite Hstep, bool_decide_eq_true_2 by done.
  unfold App.closure. simpl lookup. simpl default.
  unfold handleGenerateResume, Home.documentGenerationProps. simpl resumeFile.
  simpl jobDescriptionFile. rewrite Hfiles. simpl Home.resume.
  simpl Home.jobDescription. run_handler. rewrite Hnet. run_handler.
  rewrite Hok. run_handler. simpl.
  unfold Home.showsDocumentGeneration, Home.showsEmailSender. simpl.
  rewrite Hstep. simpl.
  split_and!; try reflexivity. destruct (App.emailSender a); eauto.
Qed.

Lemma step_generate_cover_letter a format net rf jf r :
  Home.step (App.home a) = Home.results →
  Home.uploadedFiles (App.home a) = Home.mkUploadedFiles (Some rf) (Some jf) →
  loadingCover (App.documentGeneration a) = false →
  net (generateRequest "http://localhost:8000/api/generate-cover-letter" rf jf format)
  = Resolved r →
  ok r = true →
  let a' := App.step a (App.GenerateCoverLetter format 0 net) in
  App.home a'
  = Home.setGeneratedDocs
      (Home.mkGeneratedDocs (resumePath (App.documentGeneration a))
         (backendPath (coverLetterFilename format))) (App.home a)
  ∧ resumePath (App.documentGeneration a') = resumePath (App.documentGeneration a)
  ∧ coverPath (App.documentGeneration a') = backendPath (coverLetterFilename format)
  ∧ loadingResume (App.documentGeneration a') = loadingResume (App.documentGeneration a)
  ∧ loadingCover (App.documentGeneration a') = false
  ∧ is_Some (App.emailSender a').
Proof.
  intros Hstep Hfiles Hloading Hnet Hok a'. subst a'.
  unfold App.step. rewrite Hloading.
  unfold App.onDocumentGeneration, Home.showsDocumentGeneration.
  rewrite Hstep, bool_decide_eq_true_2 by done.
  unfold App.closure. simpl lookup. simpl default.
  unfold handleGenerateCoverLetter, Home.documentGenerationProps. simpl resumeFile.
  simpl jobDescriptionFile. rewrite Hfiles. simpl Home.resume.
  simpl Home.jobDescription. run_handler. rewrite Hnet. run_handler.
  rewrite Hok. run_handler. simpl.
  unfold Home.showsDocumentGeneration, Home.showsEmailSender. simpl.
  rewrite Hstep. simpl. rewrite orb_true_r.
  split_and!; try reflexivity. destruct (App.emailSender a); eauto.
Qed.

(** X20: on the results page, generating the resume and then the cover letter,
    or the cover letter and then the resume, each from the current render and
    each answered well, leaves [Home] with both paths, whatever it held
    before, and [EmailSender] mounted. *)
Theorem both_orders_give_both_paths (a : App.State) (f g : Format)
    (net : Network) (rf jf : File) (r r' : Response) :
  Home.step (App.home a) = Home.results →
  Home.uploadedFiles (App.home a) = Home.mkUploadedFiles (Some rf) (Some jf) →
  loadingResume (App.documentGeneration a) = false →
  loadingCover (App.documentGeneration a) = false →
  net (generateRequest "http://localhost:8000/api/generate-resume" rf jf f)
  = Resolved r →
  ok r = true →
  net (generateRequest "http://localhost:8000/api/generate-cover-letter" rf jf g)
  = Resolved r' →
  ok r' = true →
  let docs := Home.mkGeneratedDocs (backendPath (resumeFilename f))
                (backendPath (coverLetterFilename g)) in
  let resume_first :=
    App.step (App.step a (App.GenerateResume f 0 net))
      (App.GenerateCoverLetter g 0 net) in
  let cover_first :=
    App.step (App.step a (App.GenerateCoverLetter g 0 net))
      (App.GenerateResume f 0 net) in
  Home.generatedDocs (App.home resume_first) = docs
  ∧ Home.generatedDocs (App.home cover_first) = docs
  ∧ is_Some (App.emailSender resume_first)
  ∧ is_Some (App.emailSender cover_first).
Proof.
  intros Hstep Hfiles Hlr Hlc Hnet Hok Hnet' Hok' docs resume_first cover_first.
  destruct (step_generate_resume a f net rf jf r Hstep Hfiles Hlr Hnet Hok)
    as (Hh1 & Hr1 & Hc1 & Hlr1 & Hlc1 & _).
  destruct (step_generate_cover_letter a g net rf jf r' Hstep Hfiles Hlc Hnet' Hok')
    as (Hh2 & Hr2 & Hc2 & Hlr2 & Hlc2 & _).
  destruct (step_generate_cover_letter (App.step a (App.GenerateResume f 0 net))
              g net rf jf r') as (Hh12 & _ & _ & _ & _ & Hes12);
    [by rewrite Hh1 | by rewrite Hh1 | by rewrite Hlc1 | done | done |].
  destruct (step_generate_resume (App.step a (App.GenerateCoverLetter g 0 net))
              f net rf jf r) as (Hh21 & _ & _ & _ & _ & Hes21);
    [by rewrite Hh2 | by rewrite Hh2 | by rewrite Hlr2 | done | done |].
  subst resume_first cover_first docs. split_and!; [| | done | done].
  - rewrite Hh12, Hr1. reflexivity.
  - rewrite Hh21, Hc2. reflexivity.
Qed.

Lemma both_orders_give_both_paths_witness :
  let a := App.exec session_analysed in
  let cover_first :=
    App.step (App.step a (App.GenerateCoverLetter docx 0 server))
      (App.GenerateResume pdf 0 server) in
  (Home.step (App.home a) = Home.results
   ∧ Home.uploadedFiles (App.home a) = Home.mkUploadedFiles (Some cv_pdf) (Some job_pdf)
   ∧ loadingResume (App.documentGeneration a) = false
   ∧ loadingCover (App.documentGeneration a) = false)
  ∧ Home.generatedDocs (App.home cover_first)
    = Home.mkGeneratedDocs "generated/latest_resume.pdf"
        "generated/latest_cover_letter.docx".
Proof.
  intros a cover_first.
  assert (Home.step (App.home a) = Home.results) as Hstep by (vm_compute; reflexivity).
  assert (Home.uploadedFiles (App.home a)
          = Home.mkUploadedFiles (Some cv_pdf) (Some job_pdf)) as Hfiles
    by (vm_compute; reflexivity).
  assert (loadingResume (App.documentGeneration a) = false) as Hlr
    by (vm_compute; reflexivity).
  assert (loadingCover (App.documentGeneration a) = false) as Hlc
    by (vm_compute; reflexivity).
  split; [by split_and!|].
  exact (proj1 (proj2 (both_orders_give_both_paths a pdf docx server cv_pdf job_pdf
                         (created "PK") (created "PK")
                         Hstep Hfiles Hlr Hlc eq_refl eq_refl eq_refl eq_refl))).
Defined.

End BothDocuments.

(** ** AnalysisResults: the colour of the score *)

Section MatchColours.
Import AnalysisResults.

Example ring_of_scores :
  getMatchRing (Num 80) = "text-green-600"
  ∧ getMatchRing (Num (799 # 10)) = "text-yellow-600"
  ∧ getMatchRing (Num 60) = "text-yellow-600"
  ∧ getMatchRing (Num (-5)) = "text-red-600"
  ∧ getMatchRing NaN = "text-red-600".
Proof. repeat split. Qed.

Lemma ge_true q k : ge (Num q) k = true ↔ (k <= q)%Q.
Proof. apply Qle_bool_iff. Qed.

Lemma ge_false q k : ge (Num q) k = false ↔ (q < k)%Q.
Proof.
  rewrite <- not_true_iff_false, ge_true. split.
  - apply Qnot_le_lt.
  - apply Qlt_not_le.
Qed.

(** The band of a finite score. *)
Lemma ring_bands q :
  (getMatchRing (Num q) = "text-green-600" ↔ (80 <= q)%Q)
  ∧ (getMatchRing (Num q) = "text-yellow-600" ↔ (60 <= q ∧ q < 80)%Q)
  ∧ (getMatchRing (Num q) = "text-red-600" ↔ (q < 60)%Q).
Proof.
  unfold getMatchRing.
  destruct (ge (Num q) 80) eqn:H80, (ge (Num q) 60) eqn:H60;
    first [apply ge_true in H80 | apply ge_false in H80];
    first [apply ge_true in H60 | apply ge_false in H60];
    (split; [|split]);
    (split;
     [ first [discriminate | intros _; first [lra | split; lra]]
     | intros; first [reflexivity | exfalso; destruct_and?; lra] ]).
Qed.

(** X21: [getMatchColor] and [getMatchRing] use the same bands: the classes of
    the first begin with the class of the second, for every number; a greater
    score never gets a worse colour; and a score that is not a number
    ([NaN], or a missing one) is shown in red. *)
Theorem match_colours_agree (n m : number) :
  (∃ rest, getMatchColor n = getMatchRing n +:+ rest)
  ∧ (le n m → (rank (getMatchRing n) ≤ rank (getMatchRing m))%nat)
  ∧ getMatchRing NaN = "text-red-600"
  ∧ getMatchColor NaN = "text-red-600 bg-red-50 border-red-200".
Proof.
  split_and!; [| |reflexivity|reflexivity].
  - unfold getMatchColor, getMatchRing.
    destruct (ge n 80); [by eexists|]. destruct (ge n 60); by eexists.
  - intros Hle. unfold getMatchRing.
    destruct n as [p| | |], m as [q| | |]; simpl in Hle; try done;
      try (vm_compute; lia);
      try (destruct (ge (Num p) 80), (ge (Num p) 60); vm_compute; lia);
      try (destruct (ge (Num q) 80), (ge (Num q) 60); vm_compute; lia).
    destruct (ge (Num p) 80) eqn:Hp80, (ge (Num p) 60) eqn:Hp60,
      (ge (Num q) 80) eqn:Hq80, (ge (Num q) 60) eqn:Hq60;
      try (vm_compute; lia);
      first [apply ge_true in Hp80 | apply ge_false in Hp80];
      first [apply ge_true in Hp60 | apply ge_false in Hp60];
      first [apply ge_true in Hq80 | apply ge_false in Hq80];
      first [apply ge_true in Hq60 | apply ge_false in Hq60]; lra.
Qed.

End MatchColours.

(** ** No retry on the client *)

Section OneRequest.

(** X22: a call of a handler makes at most one request, whatever the answer: the
    client never repeats a request by itself after a failure. *)
Theorem one_request_per_call (net : Network) :
  (∀ cl st,
     (length (requests (trace (run (FileUpload.handleAnalyze cl) net st))) ≤ 1)%nat)
  ∧ (∀ p cl format st,
       (length (requests
                  (trace (run (DocumentGeneration.handleGenerateResume p cl format)
                            net st))) ≤ 1)%nat)
  ∧ (∀ p cl format st,
       (length (requests
                  (trace (run (DocumentGeneration.handleGenerateCoverLetter p cl format)
                            net st))) ≤ 1)%nat)
  ∧ (∀ p cl st,
       (length (requests (trace (run (EmailSender.handleSendEmail p cl) net st)))
        ≤ 1)%nat).
Proof.
  split_and!.
  - intros cl st. unfold FileUpload.handleAnalyze.
    destruct (FileUpload.resumeFile cl), (FileUpload.jobFile cl); try (simpl; lia).
    run_handler. destruct (net _) as [r|err]; run_handler; [|simpl; lia].
    destruct (ok r), (json r); run_handler; simpl; lia.
  - intros p cl format st. unfold DocumentGeneration.handleGenerateResume.
    destruct (DocumentGeneration.resumeFile p), (DocumentGeneration.jobDescriptionFile p);
      try (simpl; lia).
    run_handler. destruct (net _) as [r|err]; run_handler; [|simpl; lia].
    destruct (ok r), (json r), (DocumentGeneration.notifies p); run_handler;
      simpl; lia.
  - intros p cl format st. unfold DocumentGeneration.handleGenerateCoverLetter.
    destruct (DocumentGeneration.resumeFile p), (DocumentGeneration.jobDescriptionFile p);
      try (simpl; lia).
    run_handler. destruct (net _) as [r|err]; run_handler; [|simpl; lia].
    destruct (ok r), (json r), (DocumentGeneration.notifies p); run_handler;
      simpl; lia.
  - intros p cl st.
    destruct (handleSendEmail_trace p cl net st) as [-> | (-> & _)]; simpl; lia.
Qed.

End OneRequest.
